(** * KeyClaim TypeScript SDK: the challenge/response client

    A shallow embedding of [KeyClaimClient] (constructor, [createChallenge],
    [generateResponse], [validateChallenge], [validate], [handleError]) and
    of the host functions it calls ([crypto.createHash('sha256')],
    [crypto.createHmac('sha256', key)], [digest('hex')], [JSON.stringify]).

    Conventions.
    - A JavaScript string is the [string] of its UTF-8 bytes, which is what
      [update] feeds to the digest; concatenation is [append].
    - A 32-bit word is a [Z] in [0, 2^32); additions wrap explicitly.
    - A byte is a [Z] in [0, 256).
    - [undefined] for an optional field or argument is [None]. *)

From Stdlib Require Import ZArith String Ascii Bool List Lia.
From Stdlib Require Import DecimalString.
Import ListNotations.

Set Warnings "-register-all".

Local Open Scope Z_scope.

(** ** SHA-256 (FIPS 180-4), as computed by [crypto.createHash('sha256')] *)

Module Sha256.

Definition wrap (x : Z) : Z := x mod 2 ^ 32.

Definition add32 (x y : Z) : Z := wrap (x + y).

Definition rotr (n x : Z) : Z :=
  Z.lor (Z.shiftr x n) (wrap (Z.shiftl x (32 - n))).

Definition shr (n x : Z) : Z := Z.shiftr x n.

Definition not32 (x : Z) : Z := Z.lxor x 0xffffffff.

Definition Ch (x y z : Z) : Z :=
  Z.lxor (Z.land x y) (Z.land (not32 x) z).

Definition Maj (x y z : Z) : Z :=
  Z.lxor (Z.lxor (Z.land x y) (Z.land x z)) (Z.land y z).

Definition bsig0 (x : Z) : Z :=
  Z.lxor (Z.lxor (rotr 2 x) (rotr 13 x)) (rotr 22 x).

Definition bsig1 (x : Z) : Z :=
  Z.lxor (Z.lxor (rotr 6 x) (rotr 11 x)) (rotr 25 x).

Definition ssig0 (x : Z) : Z :=
  Z.lxor (Z.lxor (rotr 7 x) (rotr 18 x)) (shr 3 x).

Definition ssig1 (x : Z) : Z :=
  Z.lxor (Z.lxor (rotr 17 x) (rotr 19 x)) (shr 10 x).

(** The first 64 primes: trial division by the primes found so far. *)
Fixpoint primes_from (fuel : nat) (count : nat) (candidate : Z) (found : list Z) : list Z :=
  match fuel, count with
  | O, _ => rev found
  | _, O => rev found
  | S fuel', S count' =>
      if existsb (fun p => candidate mod p =? 0) found
      then primes_from fuel' count (candidate + 1) found
      else primes_from fuel' count' (candidate + 1) (candidate :: found)
  end.

Definition first_primes (count : nat) : list Z := primes_from 400 count 2 [].

(** The integer cube root of a number below [2^108], by bisection. *)
Definition cube_root (n : Z) : Z :=
  fst (Nat.iter 36
         (fun bounds : Z * Z =>
            let (lo, hi) := bounds in
            let mid := (lo + hi) / 2 in
            if mid * mid * mid <=? n then (mid, hi) else (lo, mid))
         (0, 2 ^ 36)).

(** Section 4.2.2: the first 32 bits of the fractional parts of the cube
    roots of the first 64 primes. *)
Definition round_constants : list Z :=
  Eval vm_compute in map (fun p => wrap (cube_root (p * 2 ^ 96))) (first_primes 64).

(** The eight working variables, and the running hash value. *)
Record regs : Type := Regs {
  ra : Z; rb : Z; rc : Z; rd : Z; re : Z; rf : Z; rg : Z; rh : Z
}.

(** Section 5.3.3: the first 32 bits of the fractional parts of the square
    roots of the first 8 primes. *)
Definition initial_word (p : Z) : Z := wrap (Z.sqrt (p * 2 ^ 64)).

Definition initial_hash : regs :=
  Eval vm_compute in
    Regs (initial_word 2) (initial_word 3) (initial_word 5) (initial_word 7)
         (initial_word 11) (initial_word 13) (initial_word 17) (initial_word 19).

(** Padding: a 1 bit, zero bits up to 56 mod 64 bytes, then the message
    length in bits as a 64-bit big-endian integer. *)
Definition be_bytes (n : nat) (x : Z) : list Z :=
  map (fun i => Z.land (Z.shiftr x (8 * Z.of_nat i)) 255) (rev (seq 0 n)).

Definition pad (msg : list Z) : list Z :=
  let len := Z.of_nat (length msg) in
  msg ++ [0x80] ++ repeat 0 (Z.to_nat ((55 - len) mod 64)) ++ be_bytes 8 (8 * len).

Definition be_word (bs : list Z) : Z :=
  fold_left (fun acc b => Z.lor (Z.shiftl acc 8) b) bs 0.

(** [group n fuel l] cuts [l] into consecutive pieces of [n] elements;
    [fuel] bounds the number of pieces and [length l] always suffices. *)
Fixpoint group {A : Type} (n : nat) (fuel : nat) (l : list A) : list (list A) :=
  match fuel, l with
  | O, _ => []
  | _, [] => []
  | S fuel', _ => firstn n l :: group n fuel' (skipn n l)
  end.

Definition block_words (block : list Z) : list Z :=
  map be_word (group 4 16 block).

(** The message schedule, most recent word first while it is extended. *)
Definition extend (ws : list Z) : list Z :=
  add32 (add32 (add32 (ssig1 (nth 1 ws 0)) (nth 6 ws 0))
               (ssig0 (nth 14 ws 0)))
        (nth 15 ws 0) :: ws.

Definition schedule (block : list Z) : list Z :=
  rev (Nat.iter 48 extend (rev (block_words block))).

Definition round (s : regs) (kw : Z * Z) : regs :=
  let '(k, w) := kw in
  let t1 := add32 (add32 (add32 (add32 (rh s) (bsig1 (re s)))
                                (Ch (re s) (rf s) (rg s))) k) w in
  let t2 := add32 (bsig0 (ra s)) (Maj (ra s) (rb s) (rc s)) in
  Regs (add32 t1 t2) (ra s) (rb s) (rc s) (add32 (rd s) t1) (re s) (rf s) (rg s).

Definition compress (h : regs) (block : list Z) : regs :=
  let s := fold_left round (combine round_constants (schedule block)) h in
  Regs (add32 (ra h) (ra s)) (add32 (rb h) (rb s))
       (add32 (rc h) (rc s)) (add32 (rd h) (rd s))
       (add32 (re h) (re s)) (add32 (rf h) (rf s))
       (add32 (rg h) (rg s)) (add32 (rh h) (rh s)).

Definition regs_bytes (h : regs) : list Z :=
  flat_map (be_bytes 4)
    [ra h; rb h; rc h; rd h; re h; rf h; rg h; rh h].

(** The 32-byte digest of a byte string. *)
Definition digest (msg : list Z) : list Z :=
  let padded := pad msg in
  regs_bytes (fold_left compress (group 64 (length padded) padded) initial_hash).

End Sha256.

(** ** HMAC (RFC 2104) over SHA-256, as computed by
    [crypto.createHmac('sha256', key)] *)

Module Hmac.

Definition block_size : nat := 64.

Definition block_key (key : list Z) : list Z :=
  let k := if (block_size <? length key)%nat then Sha256.digest key else key in
  k ++ repeat 0 (block_size - length k).

Definition xor_pad (p : Z) (key : list Z) : list Z :=
  map (fun b => Z.lxor b p) key.

Definition digest (key msg : list Z) : list Z :=
  let k := block_key key in
  Sha256.digest (xor_pad 0x5c k ++ Sha256.digest (xor_pad 0x36 k ++ msg)).

End Hmac.

(** ** Byte strings and [digest('hex')] *)

Module Bytes.

Definition of_string (s : string) : list Z :=
  map (fun c => Z.of_N (N_of_ascii c)) (list_ascii_of_string s).

Definition hex_digit (n : Z) : ascii :=
  match n with
  | 0 => "0" | 1 => "1" | 2 => "2" | 3 => "3"
  | 4 => "4" | 5 => "5" | 6 => "6" | 7 => "7"
  | 8 => "8" | 9 => "9" | 10 => "a" | 11 => "b"
  | 12 => "c" | 13 => "d" | 14 => "e" | _ => "f"
  end%char.

Fixpoint hex (bs : list Z) : string :=
  match bs with
  | [] => EmptyString
  | b :: bs' => String (hex_digit (b / 16)) (String (hex_digit (b mod 16)) (hex bs'))
  end.

Definition is_hex_char (c : ascii) : bool :=
  let n := N_of_ascii c in
  ((48 <=? n) && (n <=? 57) || (97 <=? n) && (n <=? 102))%N.

Fixpoint all_chars (p : ascii -> bool) (s : string) : bool :=
  match s with
  | EmptyString => true
  | String c s' => p c && all_chars p s'
  end.

End Bytes.

Definition sha256_hex (s : string) : string :=
  Bytes.hex (Sha256.digest (Bytes.of_string s)).

Definition hmac_sha256_hex (key msg : string) : string :=
  Bytes.hex (Hmac.digest (Bytes.of_string key) (Bytes.of_string msg)).

Local Open Scope string_scope.

(** ** JavaScript values

    The client takes [customData : any] and numbers that may be [NaN]; both
    are tested for truthiness by [!x] and [x || y]. *)

Module Js.

(** A number: an integer (of magnitude below 10^21, which is printed in
    plain decimal) or [NaN]. *)
Inductive number : Type :=
| Int (z : Z)
| NaN.

Inductive value : Type :=
| Undefined
| Null
| Bool (b : bool)
| Num (n : number)
| Str (s : string)
| Arr (items : list value)
| Obj (props : list (string * value)).

Definition truthy_string (s : string) : bool :=
  match s with
  | EmptyString => false
  | String _ _ => true
  end.

Definition truthy_number (n : number) : bool :=
  match n with
  | Int 0 => false
  | Int _ => true
  | NaN => false
  end.

Definition truthy (v : value) : bool :=
  match v with
  | Undefined | Null => false
  | Bool b => b
  | Num n => truthy_number n
  | Str s => truthy_string s
  | Arr _ | Obj _ => true
  end.

(** [a || b] where both sides are optional strings. *)
Definition or_else (a b : option string) : option string :=
  match a with
  | Some s => if truthy_string s then a else b
  | None => b
  end.

(** [a || d] where [d] is a string. *)
Definition or_string (a : option string) (d : string) : string :=
  match a with
  | Some s => if truthy_string s then s else d
  | None => d
  end.

(** [n || d] where [d] is a number. *)
Definition or_number (n : option number) (d : number) : number :=
  match n with
  | Some x => if truthy_number x then x else d
  | None => d
  end.

(** A chain [a || b || ... || d] of optional strings ending in a string:
    the first candidate that is present and not the empty string, [d] if
    there is none. *)
Fixpoint first_nonempty (candidates : list (option string)) (d : string) : string :=
  match candidates with
  | [] => d
  | Some (String c s) :: _ => String c s
  | _ :: rest => first_nonempty rest d
  end.

Definition dquote : ascii := "034"%char.
Definition backslash : ascii := "092"%char.

(** [QuoteJSONString]: the two-character escapes, [\u00xx] for the other
    control characters, every other byte as it is. *)
Definition escape_char (c : ascii) : string :=
  let n := Z.of_N (N_of_ascii c) in
  if (n =? 34)%Z then String backslash (String dquote EmptyString)
  else if (n =? 92)%Z then String backslash (String backslash EmptyString)
  else if (n =? 8)%Z then String backslash "b"
  else if (n =? 9)%Z then String backslash "t"
  else if (n =? 10)%Z then String backslash "n"
  else if (n =? 12)%Z then String backslash "f"
  else if (n =? 13)%Z then String backslash "r"
  else if (n <? 32)%Z then String backslash ("u00" ++ Bytes.hex [n])
  else String c EmptyString.

Fixpoint escape (s : string) : string :=
  match s with
  | EmptyString => EmptyString
  | String c s' => escape_char c ++ escape s'
  end.

Definition quote (s : string) : string :=
  String dquote (escape s ++ String dquote EmptyString).

Definition number_to_string (n : number) : string :=
  match n with
  | Int z => NilZero.string_of_int (Z.to_int z)
  | NaN => "NaN"
  end.

(** [JSON.stringify(v)], [None] standing for [undefined]. A property whose
    value is [undefined] is left out, an [undefined] array element is
    printed as [null], and so is [NaN]. Properties keep the order of the
    list. *)
Fixpoint JSON_stringify (v : value) : option string :=
  match v with
  | Undefined => None
  | Null => Some "null"
  | Bool true => Some "true"
  | Bool false => Some "false"
  | Num NaN => Some "null"
  | Num n => Some (number_to_string n)
  | Str s => Some (quote s)
  | Arr items =>
      Some ("[" ++ String.concat ","
              (map (fun x => match JSON_stringify x with
                             | Some s => s
                             | None => "null"
                             end) items) ++ "]")
  | Obj props =>
      Some ("{" ++ String.concat ","
              (flat_map (fun kv => match JSON_stringify (snd kv) with
                                   | Some s => [quote (fst kv) ++ ":" ++ s]
                                   | None => []
                                   end) props) ++ "}")
  end.

(** A template literal prints [undefined] by name. *)
Definition template_part (s : option string) : string :=
  match s with
  | Some x => x
  | None => "undefined"
  end.

(** [Buffer.from(s, 'base64')]: six bits per character, decoding stops at
    the first character outside the alphabet (the padding). *)
Definition base64_value (c : ascii) : option Z :=
  let n := Z.of_N (N_of_ascii c) in
  (if (65 <=? n) && (n <=? 90) then Some (n - 65)
   else if (97 <=? n) && (n <=? 122) then Some (n - 71)
   else if (48 <=? n) && (n <=? 57) then Some (n + 4)
   else if (n =? 43) || (n =? 45) then Some 62
   else if (n =? 47) || (n =? 95) then Some 63
   else None)%Z.

Fixpoint base64_sextets (s : string) : list Z :=
  match s with
  | EmptyString => []
  | String c s' =>
      match base64_value c with
      | Some v => v :: base64_sextets s'
      | None => []
      end
  end.

Fixpoint base64_bytes (l : list Z) : list Z :=
  match l with
  | a :: b :: c :: d :: rest =>
      (a * 4 + b / 16) :: ((b mod 16) * 16 + c / 4) :: ((c mod 4) * 64 + d)
        :: base64_bytes rest
  | [a; b; c] => [a * 4 + b / 16; (b mod 16) * 16 + c / 4]
  | [a; b] => [a * 4 + b / 16]
  | _ => []
  end%Z.

Definition string_of_bytes (bs : list Z) : string :=
  string_of_list_ascii (map (fun b => ascii_of_N (Z.to_N b)) bs).

Definition base64_decode (s : string) : string :=
  string_of_bytes (base64_bytes (base64_sextets s)).

End Js.

(** ** The client *)

Module KeyClaim.

Import Js.

(** *** Data *)

Definition DEFAULT_BASE_URL_B64 : string := "aHR0cHM6Ly9rZXljbGFpbS5vcmc=".

Record KeyClaimConfig : Type := {
  cfg_apiKey : string;
  cfg_secret : option string
}.

(** The first constructor argument, [KeyClaimConfig | string]. *)
Inductive ConfigArg : Type :=
| ConfigObject (config : KeyClaimConfig)
| ConfigString (apiKey : string).

Record CreateChallengeOptions : Type := {
  opt_ttl : option number
}.

Record CreateChallengeResponse : Type := {
  challenge : string;
  expires_in : number;
  encrypted : option bool
}.

Record ValidateChallengeOptions : Type := {
  vo_challenge : string;
  vo_response : string;
  vo_decryptedChallenge : option string
}.

(** [quota: number | 'unlimited'] *)
Inductive QuotaLimit : Type :=
| Limit (n : number)
| Unlimited.

Record Quota : Type := {
  used : number;
  remaining : number;
  quota_limit : QuotaLimit
}.

Record ValidateChallengeResponse : Type := {
  valid : bool;
  signature : option string;
  quota : option Quota;
  error : option string
}.

(** [KeyClaimError]: [message], [code?], [statusCode?]. *)
Record KeyClaimError : Type := {
  err_message : string;
  err_code : option string;
  err_statusCode : option Z
}.

(** *** What the transport rejects with

    The body of an error response, read through the two casts of the
    source ([{error?, valid?}] and [{error?, message?}]); [body_valid] is
    [Some _] exactly when the body has a [valid] key. *)
Record ErrorBody : Type := {
  body_error : option string;
  body_message : option string;
  body_valid : option bool
}.

Record ErrorResponse : Type := {
  resp_status : Z;
  resp_data : option ErrorBody
}.

(** The rejection value of a [post]: [response?], [request?] (only its
    presence is looked at) and [message?]. *)
Record Failure : Type := {
  fail_response : option ErrorResponse;
  fail_request : bool;
  fail_message : option string
}.

(** A value caught by [catch (error)]: a rejection of the transport or a
    [KeyClaimError] thrown by the client itself. *)
Inductive Thrown : Type :=
| Rejection (f : Failure)
| Raised (e : KeyClaimError).

(** The three properties [handleError] and [validateChallenge] read off
    the caught value. A [KeyClaimError] has a [message] and neither a
    [response] nor a [request] property. *)
Definition response_of (error : Thrown) : option ErrorResponse :=
  match error with
  | Rejection f => fail_response f
  | Raised _ => None
  end.

Definition request_of (error : Thrown) : bool :=
  match error with
  | Rejection f => fail_request f
  | Raised _ => false
  end.

Definition message_of (error : Thrown) : option string :=
  match error with
  | Rejection f => fail_message f
  | Raised e => Some (err_message e)
  end.

(** *** Results and the transport

    A synchronous method returns or throws. *)
Inductive Result (A : Type) : Type :=
| Ok (a : A)
| Throw (error : Thrown).
Arguments Ok {A} a.
Arguments Throw {A} error.

Inductive RequestBody : Type :=
| CreateBody (ttl : number)
| ValidateBody (challenge response : string) (decryptedChallenge : option string).

Record Request : Type := {
  req_url : string;
  req_body : RequestBody
}.

Inductive PostResult (A : Type) : Type :=
| Resolved (data : A)
| Rejected (f : Failure).
Arguments Resolved {A} data.
Arguments Rejected {A} f.

(** The remote service behind [axiosInstance.post]: what each endpoint
    answers to a request body, given the requests made before it. *)
Record Transport : Type := {
  create_endpoint : list Request -> number -> PostResult CreateChallengeResponse;
  validate_endpoint :
    list Request -> string -> string -> option string ->
    PostResult ValidateChallengeResponse
}.

(** An [async] method: it runs against the log of the requests made so
    far, extends it, and resolves or rejects. *)
Definition Async (A : Type) : Type := list Request -> Result A * list Request.

Definition ret {A : Type} (a : A) : Async A := fun log => (Ok a, log).

Definition throw {A : Type} (error : Thrown) : Async A := fun log => (Throw error, log).

Definition bind {A B : Type} (m : Async A) (k : A -> Async B) : Async B :=
  fun log =>
    match m log with
    | (Ok a, log') => k a log'
    | (Throw error, log') => (Throw error, log')
    end.

Definition try_catch {A : Type} (m : Async A) (handler : Thrown -> Async A) : Async A :=
  fun log =>
    match m log with
    | (Ok a, log') => (Ok a, log')
    | (Throw error, log') => handler error log'
    end.

Definition lift {A : Type} (r : Result A) : Async A := fun log => (r, log).

Declare Scope async_scope.
Delimit Scope async_scope with async.
Notation "'let*' x ':=' m 'in' k" := (bind m (fun x => k))
  (at level 10, x name, m at level 100, k at level 200) : async_scope.

Definition of_post {A : Type} (r : PostResult A) : Result A :=
  match r with
  | Resolved data => Ok data
  | Rejected f => Throw (Rejection f)
  end.

Definition create_request (ttl : number) : Request :=
  {| req_url := "/challenge/create"; req_body := CreateBody ttl |}.

Definition validate_request (options : ValidateChallengeOptions) : Request :=
  {| req_url := "/challenge/validate";
     req_body := ValidateBody (vo_challenge options) (vo_response options)
                              (vo_decryptedChallenge options) |}.

(** [axiosInstance.post('/challenge/create', {ttl})] *)
Definition post_create (t : Transport) (ttl : number) : Async CreateChallengeResponse :=
  fun log =>
    (of_post (create_endpoint t log ttl), (log ++ [create_request ttl])%list).

(** [axiosInstance.post('/challenge/validate',
    {challenge, response, decryptedChallenge})] *)
Definition post_validate (t : Transport) (options : ValidateChallengeOptions)
  : Async ValidateChallengeResponse :=
  fun log =>
    (of_post (validate_endpoint t log (vo_challenge options) (vo_response options)
                                (vo_decryptedChallenge options)),
     (log ++ [validate_request options])%list).

(** *** The class *)

Record AxiosConfig : Type := {
  baseURL : string;
  headers : list (string * string);
  timeout : Z
}.

Record KeyClaimClient : Type := {
  apiKey : string;
  baseUrl : string;
  secret : string;
  axiosInstance : AxiosConfig
}.

Definition new_KeyClaimError (message : string) (code : option string)
    (statusCode : option Z) : KeyClaimError :=
  {| err_message := message; err_code := code; err_statusCode := statusCode |}.

Definition invalid_api_key_message : string :=
  "Invalid API key format. API key must start with "
    ++ String dquote ("kc_" ++ String dquote EmptyString).

Definition invalid_api_key : KeyClaimError :=
  new_KeyClaimError invalid_api_key_message None None.

Definition KeyClaimClient_constructor (config : ConfigArg) (secret : option string)
  : Result KeyClaimClient :=
  let defaultBaseUrl := base64_decode DEFAULT_BASE_URL_B64 in
  let '(this_apiKey, this_baseUrl, this_secret) :=
    match config with
    | ConfigString key => (key, defaultBaseUrl, or_string secret key)
    | ConfigObject c =>
        (cfg_apiKey c, defaultBaseUrl, or_string (cfg_secret c) (cfg_apiKey c))
    end in
  if negb (truthy_string this_apiKey) || negb (prefix "kc_" this_apiKey)
  then Throw (Raised invalid_api_key)
  else Ok {| apiKey := this_apiKey;
             baseUrl := this_baseUrl;
             secret := this_secret;
             axiosInstance :=
               {| baseURL := this_baseUrl ++ "/api";
                  headers := [("Content-Type", "application/json");
                              ("Authorization", "Bearer " ++ this_apiKey)];
                  timeout := 30000 |} |}.

Definition createClient (config : ConfigArg) (secret : option string)
  : Result KeyClaimClient :=
  KeyClaimClient_constructor config secret.

(** [errorData?.error] and [errorData?.message] *)
Definition data_error (errorData : option ErrorBody) : option string :=
  match errorData with
  | Some d => body_error d
  | None => None
  end.

Definition data_message (errorData : option ErrorBody) : option string :=
  match errorData with
  | Some d => body_message d
  | None => None
  end.

Definition handleError (error : Thrown) (defaultMessage : string) : KeyClaimError :=
  match response_of error with
  | Some response =>
      let statusCode := resp_status response in
      let errorData := resp_data response in
      let errorMessage :=
        or_else (or_else (data_error errorData) (data_message errorData))
                (message_of error) in
      new_KeyClaimError (or_string errorMessage defaultMessage)
                        (data_error errorData)
                        (Some statusCode)
  | None =>
      if request_of error
      then new_KeyClaimError "Network error: No response received from server"
                             (Some "network_error") None
      else new_KeyClaimError (or_string (message_of error) defaultMessage)
                             (Some "unknown_error") None
  end.

Definition custom_data_required : KeyClaimError :=
  new_KeyClaimError "Custom data is required for custom method" None None.

Definition unknown_method (method : string) : KeyClaimError :=
  new_KeyClaimError ("Unknown response method: " ++ method) None None.

(** [method] is [None] when the argument is left out; the parameter
    default then makes it ['hmac']. *)
Definition generateResponse (this : KeyClaimClient) (challenge : string)
    (method : option string) (customData : value) : Result string :=
  let method := match method with Some m => m | None => "hmac" end in
  if method =? "echo" then Ok challenge
  else if method =? "hmac" then Ok (hmac_sha256_hex (secret this) challenge)
  else if method =? "hash" then Ok (sha256_hex (challenge ++ secret this))
  else if method =? "custom" then
    if negb (truthy customData) then Throw (Raised custom_data_required)
    else
      let data :=
        match customData with
        | Str s => challenge ++ ":" ++ s
        | _ => challenge ++ ":" ++ template_part (JSON_stringify customData)
        end in
      Ok (sha256_hex data)
  else Throw (Raised (unknown_method method)).

Section Remote.

Variable t : Transport.
Variable this : KeyClaimClient.

Local Open Scope async_scope.

(** [options] is [None] when the argument is left out ([options = {}]). *)
Definition options_ttl (options : option CreateChallengeOptions) : option number :=
  opt_ttl match options with Some o => o | None => {| opt_ttl := None |} end.

Definition createChallenge (options : option CreateChallengeOptions)
  : Async CreateChallengeResponse :=
  try_catch
    (let* data := post_create t (or_number (options_ttl options) (Int 30)) in
     ret data)
    (fun error => throw (Raised (handleError error "Failed to create challenge"))).

(** [axiosError.response?.data && 'valid' in axiosError.response.data] *)
Definition validation_body (error : Thrown) : option ErrorBody :=
  match response_of error with
  | Some response =>
      match resp_data response with
      | Some d => match body_valid d with Some _ => Some d | None => None end
      | None => None
      end
  | None => None
  end.

Definition validateChallenge (options : ValidateChallengeOptions)
  : Async ValidateChallengeResponse :=
  try_catch
    (let* data := post_validate t options in
     ret data)
    (fun error =>
       match validation_body error with
       | Some d =>
           ret {| valid := false;
                  signature := None;
                  quota := None;
                  error := Some (or_string (body_error d) "Validation failed") |}
       | None =>
           throw (Raised (handleError error "Failed to validate challenge"))
       end).

(** [method] and [ttl] are [None] when left out; the parameter defaults
    are ['hmac'] and [30]. *)
Definition validate (method : option string) (ttl : option number)
    (customData : value) : Async ValidateChallengeResponse :=
  let method := match method with Some m => m | None => "hmac" end in
  let ttl := match ttl with Some n => n | None => Int 30 end in
  try_catch
    (let* created := createChallenge (Some {| opt_ttl := Some ttl |}) in
     let* response :=
       lift (generateResponse this (challenge created) (Some method) customData) in
     validateChallenge {| vo_challenge := challenge created;
                          vo_response := response;
                          vo_decryptedChallenge := None |})
    (fun error => throw (Raised (handleError error "Validation flow failed"))).

End Remote.

End KeyClaim.

(** ** The specification's reading of the fallbacks

    The specification writes the fallbacks of [validateChallenge] and of the
    error classifier with [??]: a candidate is taken whenever it is present.
    These definitions follow its words; they are compared with the code
    below. *)

Module Spec.

Import Js KeyClaim.

(** [a ?? b] on optional strings. *)
Definition nullish (a b : option string) : option string :=
  match a with
  | Some s => Some s
  | None => b
  end.

(** [a ?? d] where [d] is a string. *)
Definition nullish_string (a : option string) (d : string) : string :=
  match a with
  | Some s => s
  | None => d
  end.

(** Section 4.2, path 2: [{valid: false, error: payload.error ?? "Validation failed"}]. *)
Definition reinterpreted (payload : ErrorBody) : ValidateChallengeResponse :=
  {| valid := false;
     signature := None;
     quota := None;
     error := Some (nullish_string (body_error payload) "Validation failed") |}.

(** Section 4.3: [classify(failure, defaultMessage)]. *)
Definition classify (failure : Thrown) (defaultMessage : string) : KeyClaimError :=
  match response_of failure with
  | Some response =>
      let body := resp_data response in
      {| err_message :=
           nullish_string
             (nullish (nullish (data_error body) (data_message body))
                      (message_of failure))
             defaultMessage;
         err_code := data_error body;
         err_statusCode := Some (resp_status response) |}
  | None =>
      if request_of failure
      then {| err_message := "Network error: No response received from server";
              err_code := Some "network_error";
              err_statusCode := None |}
      else {| err_message := nullish_string (message_of failure) defaultMessage;
              err_code := Some "unknown_error";
              err_statusCode := None |}
  end.

End Spec.

(** ** Fixtures: the mocks of the test suite *)

Module Fixtures.

Import Js KeyClaim.

Definition mockApiKey : string :=
  "kc_test123456789012345678901234567890123456789012345678901234567890".

Definition mockSecret : string := "test-secret-key".

Definition client : KeyClaimClient :=
  {| apiKey := mockApiKey;
     baseUrl := "https://keyclaim.org";
     secret := mockSecret;
     axiosInstance :=
       {| baseURL := "https://keyclaim.org/api";
          headers := [("Content-Type", "application/json");
                      ("Authorization", "Bearer " ++ mockApiKey)];
          timeout := 30000 |} |}.

Definition no_failure : Failure :=
  {| fail_response := None; fail_request := false; fail_message := None |}.

Definition http_failure (status : Z) (body : ErrorBody) (message : option string)
  : Failure :=
  {| fail_response := Some {| resp_status := status; resp_data := Some body |};
     fail_request := false;
     fail_message := message |}.

Definition body (e m : option string) (v : option bool) : ErrorBody :=
  {| body_error := e; body_message := m; body_valid := v |}.

(** [post: jest.fn().mockRejectedValue(f)] *)
Definition rejecting (f : Failure) : Transport :=
  {| create_endpoint := fun _ _ => Rejected f;
     validate_endpoint := fun _ _ _ _ => Rejected f |}.

(** [post: jest.fn().mockResolvedValue({data: ...})], one answer per
    endpoint. *)
Definition resolving (c : CreateChallengeResponse) (v : ValidateChallengeResponse)
  : Transport :=
  {| create_endpoint := fun _ _ => Resolved c;
     validate_endpoint := fun _ _ _ _ => Resolved v |}.

(** The create call succeeds and the validate call is rejected. *)
Definition create_then_reject (c : CreateChallengeResponse) (f : Failure) : Transport :=
  {| create_endpoint := fun _ _ => Resolved c;
     validate_endpoint := fun _ _ _ _ => Rejected f |}.

Definition mockChallenge : CreateChallengeResponse :=
  {| challenge := "test-challenge-123"; expires_in := Int 30; encrypted := None |}.

Definition mockValidationResponse : ValidateChallengeResponse :=
  {| valid := true;
     signature := Some "test-signature";
     quota := Some {| used := Int 5; remaining := Int 95;
                      quota_limit := Limit (Int 100) |};
     error := None |}.

Definition forbidden : Failure :=
  http_failure 403 (body (Some "Forbidden") (Some "Access denied") None) None.

(** Status 403 with the body [{error: '', message: 'Access denied'}]. *)
Definition empty_error : Failure :=
  http_failure 403 (body (Some EmptyString) (Some "Access denied") None) None.

(** Status 400 with the body [{valid: false, error: ''}]. *)
Definition invalid_with_empty_error : Failure :=
  http_failure 400 (body (Some EmptyString) None (Some false)) None.

(** Status 400 with the body [{valid: false, error: 'Invalid response'}]. *)
Definition invalid_response : Failure :=
  http_failure 400 (body (Some "Invalid response") None (Some false)) None.

(** Status 400 with the body [{valid: false}]. *)
Definition invalid_without_error : Failure :=
  http_failure 400 (body None None (Some false)) None.

Definition validateOptions : ValidateChallengeOptions :=
  {| vo_challenge := "test-challenge";
     vo_response := "test-response";
     vo_decryptedChallenge := None |}.

Definition network_timeout : Failure :=
  {| fail_response := None; fail_request := true;
     fail_message := Some "Network timeout" |}.

End Fixtures.

Import Js KeyClaim.

(** ** Test vectors and the test suite's cases *)

Example round_constants_ends :
  length Sha256.round_constants = 64%nat
  /\ hd 0 Sha256.round_constants = 0x428a2f98
  /\ last Sha256.round_constants 0 = 0xc67178f2
  /\ Sha256.ra Sha256.initial_hash = 0x6a09e667
  /\ Sha256.rh Sha256.initial_hash = 0x5be0cd19.
Proof. vm_compute. repeat split. Qed.

Example sha256_abc :
  sha256_hex "abc"
  = "ba7816bf8f01cfea414140de5dae2223b00361a396177a9cb410ff61f20015ad".
Proof. vm_compute. reflexivity. Qed.

Example sha256_empty :
  sha256_hex EmptyString
  = "e3b0c44298fc1c149afbf4c8996fb92427ae41e4649b934ca495991b7852b855".
Proof. vm_compute. reflexivity. Qed.

Example sha256_two_blocks :
  sha256_hex "abcdbcdecdefdefgefghfghighijhijkijkljklmklmnlmnomnopnopq"
  = "248d6a61d20638b8e5c026930c3e6039a33ce45964ff2167f6ecedd419db06c1".
Proof. vm_compute. reflexivity. Qed.

Example hmac_rfc4231_case2 :
  hmac_sha256_hex "Jefe" "what do ya want for nothing?"
  = "5bdcc146bf60754e6a042426089575c75a003f089d2739839dec58b964ec3843".
Proof. vm_compute. reflexivity. Qed.

Example default_base_url :
  base64_decode DEFAULT_BASE_URL_B64 = "https://keyclaim.org".
Proof. vm_compute. reflexivity. Qed.

Example constructor_object_config :
  KeyClaimClient_constructor
    (ConfigObject {| cfg_apiKey := Fixtures.mockApiKey;
                     cfg_secret := Some Fixtures.mockSecret |}) None
  = Ok Fixtures.client.
Proof. vm_compute. reflexivity. Qed.

Example constructor_default_secret :
  KeyClaimClient_constructor (ConfigString Fixtures.mockApiKey) None
  = Ok {| apiKey := Fixtures.mockApiKey;
          baseUrl := "https://keyclaim.org";
          secret := Fixtures.mockApiKey;
          axiosInstance := axiosInstance Fixtures.client |}.
Proof. vm_compute. reflexivity. Qed.

Example generate_echo :
  generateResponse Fixtures.client "test-challenge" (Some "echo") Undefined
  = Ok "test-challenge".
Proof. reflexivity. Qed.

Example generate_default_is_hmac :
  generateResponse Fixtures.client "test-challenge" None Undefined
  = Ok (hmac_sha256_hex "test-secret-key" "test-challenge").
Proof. reflexivity. Qed.

Example generate_hmac :
  generateResponse Fixtures.client "test-challenge" (Some "hmac") Undefined
  = Ok "1ba25dc1a8a06c381fb1d6a594a4c6f76d888cb4b00109b5a08208d94c590fcb".
Proof. vm_compute. reflexivity. Qed.

Example generate_hash :
  generateResponse Fixtures.client "test-challenge" (Some "hash") Undefined
  = Ok "62a6a13749a418d194988949de6dfa92b06c8cbee8475227bc28db2819ccb073".
Proof. vm_compute. reflexivity. Qed.

Example generate_custom_string :
  generateResponse Fixtures.client "test-challenge" (Some "custom") (Str "custom-string")
  = Ok (sha256_hex "test-challenge:custom-string").
Proof. reflexivity. Qed.

Example generate_custom_object :
  generateResponse Fixtures.client "test-challenge" (Some "custom")
    (Obj [("userId", Str "123"); ("timestamp", Num (Int 1234567890))])
  = Ok "ecc5872703a1f1c1bef933ea14ddbfa2dfddcc7a689c3e11a3c808ea3cec0cb5".
Proof. vm_compute. reflexivity. Qed.

(** ** Facts about the digests *)

Section DigestFacts.

(** With the length of the list as fuel, [group] loses nothing. *)
Lemma group_concat {A : Type} (n fuel : nat) (l : list A) :
  (length l <= fuel)%nat -> concat (Sha256.group (S n) fuel l) = l.
Proof.
  revert l. induction fuel as [| fuel IH]; intros l Hfuel.
  - destruct l; [reflexivity | cbn in Hfuel; lia].
  - destruct l as [| x l]; [reflexivity |].
    cbn [Sha256.group concat].
    rewrite IH.
    + apply firstn_skipn.
    + rewrite length_skipn. cbn [length] in *. lia.
Qed.


Lemma be_bytes_length (n : nat) (x : Z) : length (Sha256.be_bytes n x) = n.
Proof.
  unfold Sha256.be_bytes.
  now rewrite length_map, length_rev, length_seq.
Qed.

(** The padded message is a whole number of 64-byte blocks. *)
Lemma pad_length (msg : list Z) : Z.of_nat (length (Sha256.pad msg)) mod 64 = 0.
Proof.
  unfold Sha256.pad.
  rewrite !length_app, repeat_length, be_bytes_length.
  cbn [length].
  set (len := Z.of_nat (length msg)).
  assert (Hk : 0 <= (55 - len) mod 64 < 64) by (apply Z.mod_pos_bound; lia).
  rewrite !Nat2Z.inj_add, Z2Nat.id by lia. fold len.
  pose proof (Z.div_mod (55 - len) 64 ltac:(lia)) as Hdiv.
  replace (len + (Z.of_nat 1 + ((55 - len) mod 64 + Z.of_nat 8)))
    with ((1 - (55 - len) / 64) * 64) by lia.
  apply Z.mod_mul. lia.
Qed.

Lemma low_byte_range (x : Z) : 0 <= Z.land x 255 < 256.
Proof.
  change 255 with (Z.ones 8).
  rewrite Z.land_ones by lia.
  apply Z.mod_pos_bound. reflexivity.
Qed.

Lemma be_bytes_range (n : nat) (x : Z) :
  Forall (fun b => 0 <= b < 256) (Sha256.be_bytes n x).
Proof.
  unfold Sha256.be_bytes.
  apply Forall_forall. intros b Hb.
  apply in_map_iff in Hb. destruct Hb as [i [<- _]].
  apply low_byte_range.
Qed.

Lemma regs_bytes_length (h : Sha256.regs) : length (Sha256.regs_bytes h) = 32%nat.
Proof.
  unfold Sha256.regs_bytes. cbn [flat_map].
  repeat rewrite length_app. repeat rewrite be_bytes_length. reflexivity.
Qed.

Lemma regs_bytes_range (h : Sha256.regs) :
  Forall (fun b => 0 <= b < 256) (Sha256.regs_bytes h).
Proof.
  unfold Sha256.regs_bytes. cbn [flat_map].
  repeat (apply Forall_app; split); auto using be_bytes_range.
Qed.

(** A SHA-256 digest is 32 bytes, whatever the message. *)
Lemma sha256_digest_length (msg : list Z) : length (Sha256.digest msg) = 32%nat.
Proof. unfold Sha256.digest. apply regs_bytes_length. Qed.

Lemma sha256_digest_range (msg : list Z) :
  Forall (fun b => 0 <= b < 256) (Sha256.digest msg).
Proof. unfold Sha256.digest. apply regs_bytes_range. Qed.

Lemma hmac_digest_length (key msg : list Z) : length (Hmac.digest key msg) = 32%nat.
Proof. unfold Hmac.digest. apply sha256_digest_length. Qed.

(** The key block of HMAC is one block of the hash, whatever the key. *)
Lemma block_key_length (key : list Z) : length (Hmac.block_key key) = 64%nat.
Proof.
  unfold Hmac.block_key, Hmac.block_size.
  destruct (64 <? length key)%nat eqn:Hlong;
    rewrite length_app, repeat_length.
  - now rewrite sha256_digest_length.
  - apply Nat.ltb_ge in Hlong. lia.
Qed.

Lemma hex_length (bs : list Z) : String.length (Bytes.hex bs) = (2 * length bs)%nat.
Proof.
  induction bs as [| b bs IH]; simpl; [reflexivity |].
  rewrite IH. lia.
Qed.

Lemma hex_digit_is_hex (n : Z) : Bytes.is_hex_char (Bytes.hex_digit n) = true.
Proof.
  destruct n as [| p | p]; try reflexivity.
  do 4 (destruct p as [p | p |]; try reflexivity).
Qed.

Lemma hex_all_hex (bs : list Z) :
  Bytes.all_chars Bytes.is_hex_char (Bytes.hex bs) = true.
Proof.
  induction bs as [| b bs IH]; [reflexivity |].
  cbn [Bytes.hex Bytes.all_chars].
  now rewrite !hex_digit_is_hex, IH.
Qed.

(** On a byte, the two digits are the high and the low nibble. *)
Lemma hex_nibbles (b : Z) :
  0 <= b < 256 -> 0 <= b / 16 < 16 /\ 0 <= b mod 16 < 16.
Proof.
  intros Hb. split.
  - split; [apply Z.div_pos; lia | apply Z.div_lt_upper_bound; lia].
  - apply Z.mod_pos_bound. lia.
Qed.

Lemma sha256_hex_length (s : string) : String.length (sha256_hex s) = 64%nat.
Proof. unfold sha256_hex. now rewrite hex_length, sha256_digest_length. Qed.

Lemma hmac_sha256_hex_length (key msg : string) :
  String.length (hmac_sha256_hex key msg) = 64%nat.
Proof. unfold hmac_sha256_hex. now rewrite hex_length, hmac_digest_length. Qed.

End DigestFacts.

(** ** generateResponse *)

Section GenerateResponse.

Variable this : KeyClaimClient.
Variable challenge : string.

Lemma generateResponse_hmac (customData : value) :
  generateResponse this challenge (Some "hmac") customData
  = Ok (hmac_sha256_hex (secret this) challenge).
Proof. reflexivity. Qed.

Lemma generateResponse_hash (customData : value) :
  generateResponse this challenge (Some "hash") customData
  = Ok (sha256_hex (challenge ++ secret this)).
Proof. reflexivity. Qed.

Lemma generateResponse_custom (customData : value) :
  generateResponse this challenge (Some "custom") customData
  = if negb (truthy customData) then Throw (Raised custom_data_required)
    else Ok (sha256_hex
               match customData with
               | Str s => challenge ++ ":" ++ s
               | _ => challenge ++ ":" ++ template_part (JSON_stringify customData)
               end).
Proof. reflexivity. Qed.

(** C5. With method [hmac] the response is the hex-encoded HMAC-SHA256 of
    the challenge keyed by the secret, with method [hash] it is the
    hex-encoded SHA-256 digest of the challenge followed by the secret.
    Either response is 64 characters long, all of them hexadecimal digits,
    and it depends on the challenge and the secret alone: a client with
    the same secret gives the same response, whatever else differs. *)
Theorem generateResponse_hmac_hash (other : KeyClaimClient) (customData customData' : value) :
  secret other = secret this ->
  generateResponse this challenge (Some "hmac") customData
    = Ok (Bytes.hex (Hmac.digest (Bytes.of_string (secret this))
                                 (Bytes.of_string challenge)))
  /\ generateResponse this challenge (Some "hash") customData
    = Ok (Bytes.hex (Sha256.digest (Bytes.of_string (challenge ++ secret this))))
  /\ (forall method r,
        method = "hmac" \/ method = "hash" ->
        generateResponse this challenge (Some method) customData = Ok r ->
        String.length r = 64%nat
        /\ Bytes.all_chars Bytes.is_hex_char r = true
        /\ generateResponse other challenge (Some method) customData' = Ok r).
Proof.
  intros Hsecret.
  split; [apply generateResponse_hmac | split; [apply generateResponse_hash |]].
  intros method r [-> | ->] Hr.
  - rewrite generateResponse_hmac in Hr. injection Hr as <-.
    split; [apply hmac_sha256_hex_length |].
    split; [apply hex_all_hex |].
    unfold generateResponse.
    cbn [String.eqb Ascii.eqb Bool.eqb]. now rewrite Hsecret.
  - rewrite generateResponse_hash in Hr. injection Hr as <-.
    split; [apply sha256_hex_length |].
    split; [apply hex_all_hex |].
    unfold generateResponse.
    cbn [String.eqb Ascii.eqb Bool.eqb]. now rewrite Hsecret.
Qed.

(** C7. With method [custom] and no custom data the call throws the
    missing-custom-data error, whatever the challenge; it returns no
    digest. *)
Theorem generateResponse_custom_without_data :
  generateResponse this challenge (Some "custom") Undefined
    = Throw (Raised custom_data_required)
  /\ err_message custom_data_required = "Custom data is required for custom method"
  /\ forall r, generateResponse this challenge (Some "custom") Undefined <> Ok r.
Proof.
  split; [reflexivity | split; [reflexivity |]].
  intros r. rewrite generateResponse_custom. discriminate.
Qed.

(** C8. A method other than [echo], [hmac], [hash] and [custom] makes the
    call throw the unknown-method error, whose message ends with the
    offending method. *)
Theorem generateResponse_unknown_method (method : string) (customData : value) :
  method <> "echo" -> method <> "hmac" -> method <> "hash" -> method <> "custom" ->
  generateResponse this challenge (Some method) customData
    = Throw (Raised (unknown_method method))
  /\ err_message (unknown_method method) = "Unknown response method: " ++ method
  /\ err_code (unknown_method method) = None
  /\ err_statusCode (unknown_method method) = None.
Proof.
  intros He Hm Hh Hc.
  apply String.eqb_neq in He, Hm, Hh, Hc.
  unfold generateResponse. rewrite He, Hm, Hh, Hc.
  repeat split.
Qed.

(** C10. With method [custom], every falsy custom data (absent, [null],
    [false], [0], [NaN], the empty string) throws the missing-custom-data
    error, so a response is returned for truthy custom data only. *)
Theorem generateResponse_custom_falsy_data (customData : value) :
  (truthy customData = false ->
   generateResponse this challenge (Some "custom") customData
     = Throw (Raised custom_data_required))
  /\ (forall r,
        generateResponse this challenge (Some "custom") customData = Ok r ->
        truthy customData = true).
Proof.
  rewrite generateResponse_custom. split.
  - intros Hfalsy. now rewrite Hfalsy.
  - intros r. destruct (truthy customData); [reflexivity | discriminate].
Qed.

End GenerateResponse.

Lemma generateResponse_hmac_hash_witness :
  exists r,
    generateResponse Fixtures.client "test-challenge" (Some "hmac") Undefined = Ok r
    /\ String.length r = 64%nat
    /\ generateResponse
         {| apiKey := "kc_other"; baseUrl := baseUrl Fixtures.client;
            secret := Fixtures.mockSecret;
            axiosInstance := axiosInstance Fixtures.client |}
         "test-challenge" (Some "hmac") (Str "ignored") = Ok r.
Proof.
  destruct (generateResponse_hmac_hash Fixtures.client "test-challenge"
              {| apiKey := "kc_other"; baseUrl := baseUrl Fixtures.client;
                 secret := Fixtures.mockSecret;
                 axiosInstance := axiosInstance Fixtures.client |}
              Undefined (Str "ignored") eq_refl) as (Hhmac & _ & Hall).
  eexists. split; [exact Hhmac |].
  destruct (Hall "hmac" _ (or_introl eq_refl) Hhmac) as (Hlen & _ & Hother).
  split; [exact Hlen | exact Hother].
Defined.

Lemma generateResponse_unknown_method_witness :
  generateResponse Fixtures.client "test-challenge" (Some "bogus") Undefined
    = Throw (Raised (unknown_method "bogus"))
  /\ err_message (unknown_method "bogus") = "Unknown response method: bogus".
Proof.
  destruct (generateResponse_unknown_method Fixtures.client "test-challenge" "bogus"
              Undefined) as (Hthrow & Hmessage & _); try discriminate.
  split; [exact Hthrow | exact Hmessage].
Defined.

Lemma generateResponse_custom_falsy_data_witness :
  generateResponse Fixtures.client "test-challenge" (Some "custom") (Str EmptyString)
    = Throw (Raised custom_data_required)
  /\ generateResponse Fixtures.client "test-challenge" (Some "custom") (Num (Int 0))
    = Throw (Raised custom_data_required)
  /\ generateResponse Fixtures.client "test-challenge" (Some "custom") (Bool false)
    = Throw (Raised custom_data_required)
  /\ truthy (Str "custom-string") = true.
Proof.
  split; [| split; [| split]].
  - exact (proj1 (generateResponse_custom_falsy_data Fixtures.client "test-challenge"
                    (Str EmptyString)) eq_refl).
  - exact (proj1 (generateResponse_custom_falsy_data Fixtures.client "test-challenge"
                    (Num (Int 0))) eq_refl).
  - exact (proj1 (generateResponse_custom_falsy_data Fixtures.client "test-challenge"
                    (Bool false)) eq_refl).
  - exact (proj2 (generateResponse_custom_falsy_data Fixtures.client "test-challenge"
                    (Str "custom-string")) _ eq_refl).
Defined.

(** ** The constructor *)

(** C6. An API key that is empty or does not start with [kc_] makes the
    constructor throw the invalid-key error, in the object form and in the
    positional form alike (and through [createClient]). No client is
    returned; since requests are issued by the methods of a client only, and
    the constructor itself has no access to the transport, none is made. *)
Theorem constructor_rejects_invalid_api_key (key : string) (s1 s2 : option string) :
  key = EmptyString \/ prefix "kc_" key = false ->
  KeyClaimClient_constructor (ConfigObject {| cfg_apiKey := key; cfg_secret := s1 |}) s2
    = Throw (Raised invalid_api_key)
  /\ KeyClaimClient_constructor (ConfigString key) s2 = Throw (Raised invalid_api_key)
  /\ createClient (ConfigObject {| cfg_apiKey := key; cfg_secret := s1 |}) s2
    = Throw (Raised invalid_api_key)
  /\ createClient (ConfigString key) s2 = Throw (Raised invalid_api_key).
Proof.
  intros Hkey.
  assert (Hguard : negb (truthy_string key) || negb (prefix "kc_" key) = true).
  { destruct Hkey as [-> | Hprefix]; [reflexivity |].
    rewrite Hprefix. apply orb_true_r. }
  unfold createClient, KeyClaimClient_constructor.
  cbn [cfg_apiKey cfg_secret]. rewrite Hguard. repeat split.
Qed.

Lemma constructor_rejects_invalid_api_key_witness :
  KeyClaimClient_constructor
    (ConfigObject {| cfg_apiKey := "invalid-key"; cfg_secret := None |}) None
    = Throw (Raised invalid_api_key)
  /\ KeyClaimClient_constructor (ConfigString EmptyString) (Some "secret")
    = Throw (Raised invalid_api_key).
Proof.
  split.
  - exact (proj1 (constructor_rejects_invalid_api_key "invalid-key" None None
                    (or_intror eq_refl))).
  - exact (proj1 (proj2 (constructor_rejects_invalid_api_key EmptyString None
                           (Some "secret") (or_introl eq_refl)))).
Defined.

(** ** handleError *)

(** C4, as the code has it. The classification has three tiers, in this
    order. With a response: the message is the first of the body's [error],
    the body's [message] and the failure's own message that is present and
    not the empty string, the default message if there is none; the code is
    the body's [error] as it is (absent, or empty, when the body's is); the
    status code is the HTTP status. Without a response but with a request:
    the fixed network-error message and the code [network_error], no status
    code. Otherwise: the failure's own message if present and not empty,
    else the default message, with the code [unknown_error] and no status
    code. *)
Theorem handleError_three_tiers (error : Thrown) (defaultMessage : string) :
  match response_of error with
  | Some response =>
      handleError error defaultMessage
      = {| err_message :=
             first_nonempty
               [data_error (resp_data response);
                data_message (resp_data response);
                message_of error] defaultMessage;
           err_code := data_error (resp_data response);
           err_statusCode := Some (resp_status response) |}
  | None =>
      if request_of error
      then handleError error defaultMessage
           = {| err_message := "Network error: No response received from server";
                err_code := Some "network_error";
                err_statusCode := None |}
      else handleError error defaultMessage
           = {| err_message := first_nonempty [message_of error] defaultMessage;
                err_code := Some "unknown_error";
                err_statusCode := None |}
  end.
Proof.
  unfold handleError.
  destruct (response_of error) as [response |].
  - unfold new_KeyClaimError. f_equal.
    destruct (data_error (resp_data response)) as [[| c1 s1] |];
      destruct (data_message (resp_data response)) as [[| c2 s2] |];
      destruct (message_of error) as [[| c3 s3] |]; reflexivity.
  - destruct (request_of error); [reflexivity |].
    unfold new_KeyClaimError. f_equal.
    destruct (message_of error) as [[| c s] |]; reflexivity.
Qed.

(** C4, as stated, fails: a body whose [error] is the empty string does not
    give the empty message; the message falls through to the body's
    [message]. *)
Lemma handleError_empty_error_counterexample :
  handleError (Rejection Fixtures.empty_error) "Failed to create challenge"
    = {| err_message := "Access denied";
         err_code := Some EmptyString;
         err_statusCode := Some 403 |}
  /\ Spec.classify (Rejection Fixtures.empty_error) "Failed to create challenge"
    = {| err_message := EmptyString;
         err_code := Some EmptyString;
         err_statusCode := Some 403 |}
  /\ handleError (Rejection Fixtures.empty_error) "Failed to create challenge"
     <> Spec.classify (Rejection Fixtures.empty_error) "Failed to create challenge".
Proof.
  split; [reflexivity | split; [reflexivity | discriminate]].
Qed.

(** Where no candidate is the empty string, the code and the
    specification's classifier agree. *)
Lemma handleError_agrees_without_empty_strings (error : Thrown) (defaultMessage : string) :
  (forall response, response_of error = Some response ->
     data_error (resp_data response) <> Some EmptyString
     /\ data_message (resp_data response) <> Some EmptyString) ->
  message_of error <> Some EmptyString ->
  handleError error defaultMessage = Spec.classify error defaultMessage.
Proof.
  intros Hbody Hmessage.
  unfold handleError, Spec.classify.
  destruct (response_of error) as [response |].
  - destruct (Hbody response eq_refl) as [He Hm].
    unfold new_KeyClaimError. f_equal.
    destruct (data_error (resp_data response)) as [[| c1 s1] |];
      destruct (data_message (resp_data response)) as [[| c2 s2] |];
      destruct (message_of error) as [[| c3 s3] |];
      try reflexivity; congruence.
  - destruct (request_of error); [reflexivity |].
    unfold new_KeyClaimError. f_equal.
    destruct (message_of error) as [[| c s] |]; try reflexivity; congruence.
Qed.

(** ** The remote operations *)

(** Unfolds the plumbing of [Async]. *)
Ltac unfold_async :=
  unfold try_catch, bind, ret, throw, lift, post_create, post_validate.

(** Case analysis on an optional string: absent, empty, or not empty. *)
Ltac destruct_candidate e := destruct e as [[| ? ?] |].

Section RemoteFacts.

Variable t : Transport.

(** [createChallenge] makes one request, whose [ttl] is [options.ttl || 30],
    and returns the payload or throws the classified failure. *)
Lemma createChallenge_run (options : option CreateChallengeOptions) (log : list Request) :
  createChallenge t options log
  = (match create_endpoint t log (or_number (options_ttl options) (Int 30)) with
     | Resolved data => Ok data
     | Rejected f =>
         Throw (Raised (handleError (Rejection f) "Failed to create challenge"))
     end,
     (log ++ [create_request (or_number (options_ttl options) (Int 30))])%list).
Proof.
  unfold createChallenge. unfold_async.
  destruct (create_endpoint t log _); reflexivity.
Qed.

(** [validateChallenge] makes one request carrying the three fields and
    returns the payload, the reinterpreted error body, or throws the
    classified failure. *)
Lemma validateChallenge_run (options : ValidateChallengeOptions) (log : list Request) :
  validateChallenge t options log
  = (match validate_endpoint t log (vo_challenge options) (vo_response options)
                             (vo_decryptedChallenge options) with
     | Resolved data => Ok data
     | Rejected f =>
         match validation_body (Rejection f) with
         | Some d =>
             Ok {| valid := false; signature := None; quota := None;
                   error := Some (or_string (body_error d) "Validation failed") |}
         | None =>
             Throw (Raised (handleError (Rejection f) "Failed to validate challenge"))
         end
     end,
     (log ++ [validate_request options])%list).
Proof.
  unfold validateChallenge. unfold_async.
  destruct (validate_endpoint t log _ _ _) as [data | f]; cbn [of_post];
    [reflexivity |].
  destruct (validation_body (Rejection f)); reflexivity.
Qed.

(** C3, as the code has it. When the validate call is rejected with a
    response whose body has a [valid] field, [validateChallenge] does not
    throw: it returns [{valid: false, error: e}], where [e] is the body's
    [error] when that is present and not the empty string, and the fixed
    text "Validation failed" otherwise. *)
Theorem validateChallenge_rejected_with_valid_field
    (options : ValidateChallengeOptions) (log : list Request)
    (f : Failure) (response : ErrorResponse) (payload : ErrorBody) (v : bool) :
  validate_endpoint t log (vo_challenge options) (vo_response options)
                    (vo_decryptedChallenge options) = Rejected f ->
  fail_response f = Some response ->
  resp_data response = Some payload ->
  body_valid payload = Some v ->
  fst (validateChallenge t options log)
  = Ok {| valid := false;
          signature := None;
          quota := None;
          error := Some (first_nonempty [body_error payload] "Validation failed") |}.
Proof.
  intros Hpost Hresponse Hdata Hvalid.
  rewrite validateChallenge_run, Hpost. cbn [fst].
  unfold validation_body. cbn [response_of].
  rewrite Hresponse, Hdata, Hvalid.
  destruct_candidate (body_error payload); reflexivity.
Qed.

End RemoteFacts.

Lemma validateChallenge_rejected_with_valid_field_witness :
  fst (validateChallenge (Fixtures.rejecting Fixtures.invalid_response)
         Fixtures.validateOptions [])
  = Ok {| valid := false; signature := None; quota := None;
          error := Some "Invalid response" |}.
Proof.
  exact (validateChallenge_rejected_with_valid_field
           (Fixtures.rejecting Fixtures.invalid_response)
           Fixtures.validateOptions [] Fixtures.invalid_response
           {| resp_status := 400;
              resp_data := Some (Fixtures.body (Some "Invalid response") None (Some false)) |}
           (Fixtures.body (Some "Invalid response") None (Some false)) false
           eq_refl eq_refl eq_refl eq_refl).
Defined.

(** C3, as stated, fails: when the body's [error] is present but empty, the
    outcome carries the fallback text, not the body's [error]. *)
Lemma validateChallenge_empty_error_counterexample :
  fst (validateChallenge (Fixtures.rejecting Fixtures.invalid_with_empty_error)
         Fixtures.validateOptions [])
    = Ok {| valid := false; signature := None; quota := None;
            error := Some "Validation failed" |}
  /\ Spec.reinterpreted (Fixtures.body (Some EmptyString) None (Some false))
    = {| valid := false; signature := None; quota := None;
         error := Some EmptyString |}
  /\ fst (validateChallenge (Fixtures.rejecting Fixtures.invalid_with_empty_error)
            Fixtures.validateOptions [])
     <> Ok (Spec.reinterpreted (Fixtures.body (Some EmptyString) None (Some false))).
Proof.
  split; [reflexivity | split; [reflexivity | discriminate]].
Qed.

Example validateChallenge_fallback_text :
  fst (validateChallenge (Fixtures.rejecting Fixtures.invalid_without_error)
         Fixtures.validateOptions [])
  = Ok {| valid := false; signature := None; quota := None;
          error := Some "Validation failed" |}.
Proof. reflexivity. Qed.

(** ** The composite operation *)

Section ValidateFacts.

Variable t : Transport.
Variable this : KeyClaimClient.

Lemma or_number_truthy (n : option number) :
  truthy_number (or_number n (Int 30)) = true.
Proof.
  destruct n as [x |]; cbn [or_number]; [| reflexivity].
  destruct (truthy_number x) eqn:Hx; [exact Hx | reflexivity].
Qed.

(** An error that the client has already classified is classified again
    by the handler of [validate]: it has neither a response nor a request,
    so it lands in the third tier. *)
Lemma handleError_of_raised (e : KeyClaimError) (defaultMessage : string) :
  handleError (Raised e) defaultMessage
  = new_KeyClaimError (or_string (Some (err_message e)) defaultMessage)
                      (Some "unknown_error") None.
Proof. reflexivity. Qed.

(** [validate], step by step. *)
Lemma validate_run (method : option string) (ttl : option number)
    (customData : value) (log : list Request) :
  validate t this method ttl customData log
  = let m := match method with Some m => m | None => "hmac" end in
    let n := or_number (Some (match ttl with Some n => n | None => Int 30 end))
                       (Int 30) in
    let flow_failed (e : Thrown) :=
      Throw (Raised (handleError e "Validation flow failed")) in
    match create_endpoint t log n with
    | Rejected f =>
        (flow_failed (Raised (handleError (Rejection f) "Failed to create challenge")),
         (log ++ [create_request n])%list)
    | Resolved created =>
        match generateResponse this (challenge created) (Some m) customData with
        | Throw e => (flow_failed e, (log ++ [create_request n])%list)
        | Ok response =>
            let options := {| vo_challenge := challenge created;
                              vo_response := response;
                              vo_decryptedChallenge := None |} in
            match validateChallenge t options (log ++ [create_request n])%list with
            | (Ok outcome, log') => (Ok outcome, log')
            | (Throw e, log') => (flow_failed e, log')
            end
        end
    end.
Proof.
  unfold validate. unfold try_catch at 1. unfold bind at 1.
  rewrite createChallenge_run. cbn [options_ttl opt_ttl].
  cbv zeta.
  destruct (create_endpoint t log _) as [created | f]; [| reflexivity].
  unfold bind, lift.
  destruct (generateResponse this (challenge created) _ customData)
    as [response | e]; [| reflexivity].
  destruct (validateChallenge t _ _) as [[outcome | e] log']; reflexivity.
Qed.

(** C2. If the create call resolves and the validate call, made with the
    challenge it returned and the HMAC response to that challenge,
    resolves too, then [validate('hmac', 30)] makes exactly these two
    requests, in this order, the response it sends is what
    [generateResponse] gives for the returned challenge, and it returns
    the payload of the second call as it is. *)
Theorem validate_hmac_two_calls (customData : value) (log : list Request)
    (created : CreateChallengeResponse) (outcome : ValidateChallengeResponse) :
  create_endpoint t log (Int 30) = Resolved created ->
  validate_endpoint t (log ++ [create_request (Int 30)])
    (challenge created) (hmac_sha256_hex (secret this) (challenge created)) None
    = Resolved outcome ->
  exists response,
    generateResponse this (challenge created) (Some "hmac") customData = Ok response
    /\ validate t this (Some "hmac") (Some (Int 30)) customData log
       = (Ok outcome,
          (log ++ [create_request (Int 30);
                   {| req_url := "/challenge/validate";
                      req_body := ValidateBody (challenge created) response None |}])%list).
Proof.
  intros Hcreate Hvalidate.
  exists (hmac_sha256_hex (secret this) (challenge created)).
  split; [apply generateResponse_hmac |].
  rewrite validate_run. cbv zeta. cbn [or_number truthy_number].
  rewrite Hcreate, generateResponse_hmac, validateChallenge_run.
  cbn [vo_challenge vo_response vo_decryptedChallenge].
  rewrite Hvalidate. unfold validate_request.
  cbn [vo_challenge vo_response vo_decryptedChallenge].
  now rewrite <- app_assoc.
Qed.

(** C9. A [ttl] that is left out, [0] or [NaN] is replaced by the default:
    the request then carries [ttl = 30]. Whatever the options, the [ttl] of
    the request is truthy, hence never [0]; and no request that [validate]
    makes asks for [ttl = 0] either. *)
Theorem createChallenge_falsy_ttl (options : option CreateChallengeOptions)
    (log : list Request) :
  (match options_ttl options with
   | Some n => truthy_number n = false
   | None => True
   end ->
   snd (createChallenge t options log) = (log ++ [create_request (Int 30)])%list)
  /\ (exists n,
        snd (createChallenge t options log) = (log ++ [create_request n])%list
        /\ truthy_number n = true /\ n <> Int 0)
  /\ (forall method ttl customData r,
        In r (snd (validate t this method ttl customData log)) ->
        In r log \/ req_body r <> CreateBody (Int 0)).
Proof.
  split; [| split].
  - intros Hfalsy. rewrite createChallenge_run. cbn [snd].
    destruct (options_ttl options) as [n |]; cbn [or_number]; [| reflexivity].
    now rewrite Hfalsy.
  - exists (or_number (options_ttl options) (Int 30)).
    rewrite createChallenge_run. split; [reflexivity |].
    split; [apply or_number_truthy |].
    intros Hzero. pose proof (or_number_truthy (options_ttl options)) as Htruthy.
    rewrite Hzero in Htruthy. discriminate.
  - intros method ttl customData r.
    rewrite validate_run. cbv zeta.
    set (n := or_number (Some (match ttl with Some n => n | None => Int 30 end))
                        (Int 30)).
    assert (Hn : CreateBody n <> CreateBody (Int 0)).
    { intros Heq. injection Heq as Heq.
      pose proof (or_number_truthy
                    (Some (match ttl with Some n => n | None => Int 30 end)))
        as Htruthy.
      fold n in Htruthy. rewrite Heq in Htruthy. discriminate. }
    assert (Hcreate : forall x, In x (log ++ [create_request n])%list ->
                                In x log \/ req_body x <> CreateBody (Int 0)).
    { intros x Hx. apply in_app_or in Hx. destruct Hx as [Hx | [<- | []]].
      - now left.
      - right. exact Hn. }
    destruct (create_endpoint t log n) as [created | f]; [| apply Hcreate].
    destruct (generateResponse this (challenge created) _ customData)
      as [response | e]; [| apply Hcreate].
    rewrite validateChallenge_run.
    assert (Hboth : In r ((log ++ [create_request n]) ++
                          [validate_request
                             {| vo_challenge := challenge created;
                                vo_response := response;
                                vo_decryptedChallenge := None |}])%list ->
                    In r log \/ req_body r <> CreateBody (Int 0)).
    { intros Hr. apply in_app_or in Hr. destruct Hr as [Hr | [<- | []]].
      - now apply Hcreate.
      - right. discriminate. }
    destruct (validate_endpoint t _ _ _ _) as [data | f]; [exact Hboth |].
    destruct (validation_body (Rejection f)); exact Hboth.
Qed.

(** Every error that [validate] throws has the code [unknown_error] and no
    status code, whatever the failing step had classified it as. *)
Lemma validate_failure_is_unknown_error (method : option string)
    (ttl : option number) (customData : value) (log : list Request) (e : Thrown) :
  fst (validate t this method ttl customData log) = Throw e ->
  exists message,
    e = Raised (new_KeyClaimError message (Some "unknown_error") None).
Proof.
  rewrite validate_run. cbv zeta.
  destruct (create_endpoint t log _) as [created | f].
  - destruct (generateResponse this (challenge created) _ customData)
      as [response | e0] eqn:Hgen.
    + rewrite validateChallenge_run.
      destruct (validate_endpoint t _ _ _ _) as [data | f]; [discriminate |].
      destruct (validation_body (Rejection f)); [discriminate |].
      cbn [fst]. intros Heq. injection Heq as <-.
      rewrite handleError_of_raised. eauto.
    + cbn [fst]. intros Heq. injection Heq as <-.
      unfold generateResponse in Hgen.
      repeat match type of Hgen with
             | (if ?b then _ else _) = _ => destruct b; try discriminate
             end;
        injection Hgen as <-; rewrite handleError_of_raised; eauto.
  - cbn [fst]. intros Heq. injection Heq as <-.
    rewrite handleError_of_raised. eauto.
Qed.

End ValidateFacts.

Lemma validate_hmac_two_calls_witness :
  validate (Fixtures.resolving Fixtures.mockChallenge Fixtures.mockValidationResponse)
    Fixtures.client (Some "hmac") (Some (Int 30)) Undefined []
  = (Ok Fixtures.mockValidationResponse,
     [create_request (Int 30);
      {| req_url := "/challenge/validate";
         req_body :=
           ValidateBody "test-challenge-123"
             "9d777d9268f917cfea5fd0e9058c815897a41a6f00aaaf0167d25cfcb9af2a65"
             None |}]).
Proof.
  destruct (validate_hmac_two_calls
              (Fixtures.resolving Fixtures.mockChallenge Fixtures.mockValidationResponse)
              Fixtures.client Undefined [] Fixtures.mockChallenge
              Fixtures.mockValidationResponse eq_refl eq_refl)
    as (response & Hresponse & Hrun).
  rewrite Hrun. rewrite generateResponse_hmac in Hresponse.
  injection Hresponse as <-. vm_compute. reflexivity.
Defined.

Lemma createChallenge_falsy_ttl_witness :
  snd (createChallenge (Fixtures.rejecting Fixtures.network_timeout)
         (Some {| opt_ttl := Some (Int 0) |}) [])
    = [create_request (Int 30)]
  /\ snd (createChallenge (Fixtures.rejecting Fixtures.network_timeout)
            (Some {| opt_ttl := Some NaN |}) [])
    = [create_request (Int 30)]
  /\ snd (createChallenge (Fixtures.rejecting Fixtures.network_timeout) None [])
    = [create_request (Int 30)].
Proof.
  split; [| split].
  - exact (proj1 (createChallenge_falsy_ttl
                    (Fixtures.rejecting Fixtures.network_timeout) Fixtures.client
                    (Some {| opt_ttl := Some (Int 0) |}) []) eq_refl).
  - exact (proj1 (createChallenge_falsy_ttl
                    (Fixtures.rejecting Fixtures.network_timeout) Fixtures.client
                    (Some {| opt_ttl := Some NaN |}) []) eq_refl).
  - exact (proj1 (createChallenge_falsy_ttl
                    (Fixtures.rejecting Fixtures.network_timeout) Fixtures.client
                    None []) I).
Defined.

(** C1, on the code. An error that a step has classified does not come out
    of [validate] as the step made it: the message is kept, the code becomes
    [unknown_error] and the status code is dropped.
    - The create call is rejected with status 403 and the body
      [{error: 'Forbidden', message: 'Access denied'}]: [createChallenge]
      throws code [Forbidden] with status code 403, [validate] throws code
      [unknown_error] without a status code.
    - The create call gets no response: [createChallenge] throws code
      [network_error], [validate] throws code [unknown_error].
    - Method [custom] without custom data: [generateResponse] throws an
      error without a code, [validate] throws it with code
      [unknown_error].
    - The validate call is rejected with status 403 and the same body:
      [validateChallenge] throws code [Forbidden] with status code 403,
      [validate] throws code [unknown_error] without a status code. *)
Theorem validate_reclassifies_step_errors :
  fst (createChallenge (Fixtures.rejecting Fixtures.forbidden)
         (Some {| opt_ttl := Some (Int 30) |}) [])
    = Throw (Raised (new_KeyClaimError "Forbidden" (Some "Forbidden") (Some 403)))
  /\ fst (validate (Fixtures.rejecting Fixtures.forbidden) Fixtures.client
            (Some "hmac") (Some (Int 30)) Undefined [])
    = Throw (Raised (new_KeyClaimError "Forbidden" (Some "unknown_error") None))
  /\ fst (createChallenge (Fixtures.rejecting Fixtures.network_timeout)
            (Some {| opt_ttl := Some (Int 30) |}) [])
    = Throw (Raised (new_KeyClaimError
                       "Network error: No response received from server"
                       (Some "network_error") None))
  /\ fst (validate (Fixtures.rejecting Fixtures.network_timeout) Fixtures.client
            (Some "hmac") (Some (Int 30)) Undefined [])
    = Throw (Raised (new_KeyClaimError
                       "Network error: No response received from server"
                       (Some "unknown_error") None))
  /\ generateResponse Fixtures.client (challenge Fixtures.mockChallenge)
       (Some "custom") Undefined
    = Throw (Raised (new_KeyClaimError
                       "Custom data is required for custom method" None None))
  /\ fst (validate
            (Fixtures.resolving Fixtures.mockChallenge Fixtures.mockValidationResponse)
            Fixtures.client (Some "custom") (Some (Int 30)) Undefined [])
    = Throw (Raised (new_KeyClaimError
                       "Custom data is required for custom method"
                       (Some "unknown_error") None))
  /\ fst (validateChallenge
            (Fixtures.create_then_reject Fixtures.mockChallenge Fixtures.forbidden)
            {| vo_challenge := "test-challenge-123";
               vo_response := hmac_sha256_hex Fixtures.mockSecret "test-challenge-123";
               vo_decryptedChallenge := None |}
            [create_request (Int 30)])
    = Throw (Raised (new_KeyClaimError "Forbidden" (Some "Forbidden") (Some 403)))
  /\ fst (validate
            (Fixtures.create_then_reject Fixtures.mockChallenge Fixtures.forbidden)
            Fixtures.client (Some "hmac") (Some (Int 30)) Undefined [])
    = Throw (Raised (new_KeyClaimError "Forbidden" (Some "unknown_error") None)).
Proof.
  repeat split;
    rewrite ?validate_run, ?createChallenge_run, ?validateChallenge_run;
    reflexivity.
Qed.

(** ** The error-handling cases of the test suite *)

Example create_http_error_with_status :
  fst (createChallenge (Fixtures.rejecting Fixtures.forbidden) None [])
  = Throw (Raised (new_KeyClaimError "Forbidden" (Some "Forbidden") (Some 403))).
Proof. reflexivity. Qed.

Example create_network_error :
  fst (createChallenge (Fixtures.rejecting Fixtures.network_timeout) None [])
  = Throw (Raised (new_KeyClaimError
                     "Network error: No response received from server"
                     (Some "network_error") None)).
Proof. reflexivity. Qed.

Example create_unknown_error :
  fst (createChallenge
         (Fixtures.rejecting {| fail_response := None; fail_request := false;
                                fail_message := Some "Unknown error" |}) None [])
  = Throw (Raised (new_KeyClaimError "Unknown error" (Some "unknown_error") None)).
Proof. reflexivity. Qed.

Example create_unknown_error_without_message :
  fst (createChallenge (Fixtures.rejecting Fixtures.no_failure) None [])
  = Throw (Raised (new_KeyClaimError "Failed to create challenge"
                     (Some "unknown_error") None)).
Proof. reflexivity. Qed.

Example create_http_error_with_message_field :
  fst (createChallenge
         (Fixtures.rejecting
            (Fixtures.http_failure 500
               (Fixtures.body None (Some "Server error message") None) None)) None [])
  = Throw (Raised (new_KeyClaimError "Server error message" None (Some 500))).
Proof. reflexivity. Qed.

Example create_http_error_with_axios_message :
  fst (createChallenge
         (Fixtures.rejecting
            (Fixtures.http_failure 401 (Fixtures.body None None None)
               (Some "Unauthorized request"))) None [])
  = Throw (Raised (new_KeyClaimError "Unauthorized request" None (Some 401))).
Proof. reflexivity. Qed.

Example create_http_error_with_default_message :
  fst (createChallenge
         (Fixtures.rejecting
            (Fixtures.http_failure 404 (Fixtures.body None None None) None)) None [])
  = Throw (Raised (new_KeyClaimError "Failed to create challenge" None (Some 404))).
Proof. reflexivity. Qed.

Example create_default_ttl :
  createChallenge
    (Fixtures.resolving Fixtures.mockChallenge Fixtures.mockValidationResponse) None []
  = (Ok Fixtures.mockChallenge, [create_request (Int 30)]).
Proof. reflexivity. Qed.

Example validate_network_error :
  fst (validateChallenge (Fixtures.rejecting Fixtures.network_timeout)
         Fixtures.validateOptions [])
  = Throw (Raised (new_KeyClaimError
                     "Network error: No response received from server"
                     (Some "network_error") None)).
Proof. reflexivity. Qed.

(** ** Further properties of the constructor *)

Lemma prefix_kc_nonempty (key : string) :
  prefix "kc_" key = true -> truthy_string key = true.
Proof. destruct key; [discriminate | reflexivity]. Qed.

Lemma or_string_truthy (a : option string) (d : string) :
  truthy_string d = true -> truthy_string (or_string a d) = true.
Proof.
  intros Hd. destruct a as [s |]; cbn [or_string]; [| exact Hd].
  destruct (truthy_string s) eqn:Hs; [exact Hs | exact Hd].
Qed.

Lemma truthy_string_nonempty (s : string) :
  truthy_string s = true <-> s <> EmptyString.
Proof.
  destruct s; cbn; split; try congruence; intros _; discriminate.
Qed.

(** The API key and the secret that the constructor stores. *)
Lemma constructor_run (config : ConfigArg) (s : option string) :
  KeyClaimClient_constructor config s
  = let key := match config with
               | ConfigObject c => cfg_apiKey c
               | ConfigString k => k
               end in
    let given := match config with
                 | ConfigObject c => cfg_secret c
                 | ConfigString _ => s
                 end in
    if prefix "kc_" key
    then Ok {| apiKey := key;
               baseUrl := "https://keyclaim.org";
               secret := or_string given key;
               axiosInstance :=
                 {| baseURL := "https://keyclaim.org/api";
                    headers := [("Content-Type", "application/json");
                                ("Authorization", "Bearer " ++ key)];
                    timeout := 30000 |} |}
    else Throw (Raised invalid_api_key).
Proof.
  unfold KeyClaimClient_constructor.
  change (base64_decode DEFAULT_BASE_URL_B64) with "https://keyclaim.org".
  destruct config as [c | k]; cbv zeta;
    [set (key := cfg_apiKey c) | set (key := k)];
    destruct (prefix "kc_" key) eqn:Hprefix; cbn [negb orb];
    try (rewrite (prefix_kc_nonempty _ Hprefix); reflexivity);
    now rewrite orb_true_r.
Qed.

(** X1. The constructor returns a client exactly when the API key starts
    with [kc_], in the object form and in the positional form; the secrets
    play no part in it, and the key [kc_] itself is accepted. *)
Theorem constructor_succeeds_iff_prefix (key : string) (s1 s2 : option string) :
  ((exists c, KeyClaimClient_constructor
                (ConfigObject {| cfg_apiKey := key; cfg_secret := s1 |}) s2 = Ok c)
   <-> prefix "kc_" key = true)
  /\ ((exists c, KeyClaimClient_constructor (ConfigString key) s2 = Ok c)
      <-> prefix "kc_" key = true).
Proof.
  rewrite !constructor_run. cbv zeta. cbn [cfg_apiKey cfg_secret].
  destruct (prefix "kc_" key); split; split;
    try (intros [c Hc]; discriminate); try reflexivity; try discriminate;
    intros _; eexists; reflexivity.
Qed.

(** X2. What every constructed client satisfies: its API key is the one
    given and starts with [kc_]; its secret is not the empty string; its
    base URL is https://keyclaim.org whatever the configuration; its
    requests go to the [/api] path under it with a JSON content type, the
    API key as bearer credential and a timeout of 30000 ms. *)
Theorem constructed_client_invariants (config : ConfigArg) (s : option string)
    (c : KeyClaimClient) :
  KeyClaimClient_constructor config s = Ok c ->
  apiKey c = match config with
             | ConfigObject k => cfg_apiKey k
             | ConfigString k => k
             end
  /\ prefix "kc_" (apiKey c) = true
  /\ secret c <> EmptyString
  /\ baseUrl c = "https://keyclaim.org"
  /\ axiosInstance c
     = {| baseURL := "https://keyclaim.org/api";
          headers := [("Content-Type", "application/json");
                      ("Authorization", "Bearer " ++ apiKey c)];
          timeout := 30000 |}.
Proof.
  rewrite constructor_run. cbv zeta.
  destruct (prefix "kc_" _) eqn:Hprefix; [| discriminate].
  intros Hc. injection Hc as <-. cbn [apiKey secret baseUrl axiosInstance].
  repeat split; try assumption.
  apply truthy_string_nonempty, or_string_truthy, prefix_kc_nonempty, Hprefix.
Qed.

Lemma constructed_client_invariants_witness :
  apiKey Fixtures.client = Fixtures.mockApiKey
  /\ secret Fixtures.client <> EmptyString.
Proof.
  destruct (constructed_client_invariants
              (ConfigObject {| cfg_apiKey := Fixtures.mockApiKey;
                               cfg_secret := Some Fixtures.mockSecret |})
              None Fixtures.client constructor_object_config)
    as (Hkey & _ & Hsecret & _).
  split; [exact Hkey | exact Hsecret].
Defined.

(** X3. In the object form the second argument of the constructor is not
    looked at: the result is that of the positional form called with the
    object's API key and the object's secret. *)
Theorem constructor_forms_agree (key : string) (s ignored : option string) :
  KeyClaimClient_constructor
    (ConfigObject {| cfg_apiKey := key; cfg_secret := s |}) ignored
  = KeyClaimClient_constructor (ConfigString key) s.
Proof. now rewrite !constructor_run. Qed.

(** X4. A secret that is left out or is the empty string is replaced by the
    API key: the client then answers a challenge, with method [hmac], by the
    HMAC keyed with its API key. *)
Theorem default_secret_is_api_key (key challenge : string) (s : option string)
    (customData : value) :
  prefix "kc_" key = true ->
  s = None \/ s = Some EmptyString ->
  exists c,
    KeyClaimClient_constructor (ConfigString key) s = Ok c
    /\ KeyClaimClient_constructor
         (ConfigObject {| cfg_apiKey := key; cfg_secret := s |}) None = Ok c
    /\ secret c = key
    /\ generateResponse c challenge (Some "hmac") customData
       = Ok (hmac_sha256_hex key challenge).
Proof.
  intros Hprefix Hs.
  rewrite !constructor_run. cbv zeta. cbn [cfg_apiKey cfg_secret].
  rewrite Hprefix.
  assert (Hsecret : or_string s key = key) by (destruct Hs as [-> | ->]; reflexivity).
  rewrite Hsecret.
  eexists. split; [reflexivity |]. split; [reflexivity |].
  split; [reflexivity |]. apply generateResponse_hmac.
Qed.

Lemma default_secret_is_api_key_witness :
  exists c,
    KeyClaimClient_constructor (ConfigString "kc_key") (Some EmptyString) = Ok c
    /\ secret c = "kc_key".
Proof.
  destruct (default_secret_is_api_key "kc_key" "challenge" (Some EmptyString)
              Undefined eq_refl (or_intror eq_refl)) as (c & Hc & _ & Hsecret & _).
  exists c. split; [exact Hc | exact Hsecret].
Defined.

(** ** Further properties of generateResponse *)

Section GenerateResponseMore.

Variable this : KeyClaimClient.
Variable challenge : string.

(** The method after the parameter default, as a case analysis. *)
Lemma generateResponse_cases (method : string) (customData : value) :
  (method = "echo"
   /\ generateResponse this challenge (Some method) customData = Ok challenge)
  \/ (method = "hmac"
      /\ generateResponse this challenge (Some method) customData
         = Ok (hmac_sha256_hex (secret this) challenge))
  \/ (method = "hash"
      /\ generateResponse this challenge (Some method) customData
         = Ok (sha256_hex (challenge ++ secret this)))
  \/ (method = "custom"
      /\ generateResponse this challenge (Some method) customData
         = generateResponse this challenge (Some "custom") customData)
  \/ (method <> "echo" /\ method <> "hmac" /\ method <> "hash" /\ method <> "custom"
      /\ generateResponse this challenge (Some method) customData
         = Throw (Raised (unknown_method method))).
Proof.
  destruct (String.eqb_spec method "echo") as [-> | He]; [left; now split |].
  destruct (String.eqb_spec method "hmac") as [-> | Hm];
    [right; left; split; [reflexivity | apply generateResponse_hmac] |].
  destruct (String.eqb_spec method "hash") as [-> | Hh];
    [right; right; left; split; [reflexivity | apply generateResponse_hash] |].
  destruct (String.eqb_spec method "custom") as [-> | Hc];
    [right; right; right; left; now split |].
  right; right; right; right. repeat (split; [assumption |]).
  apply String.eqb_neq in He, Hm, Hh, Hc.
  unfold generateResponse. now rewrite He, Hm, Hh, Hc.
Qed.

(** The errors of [generateResponse], for a method that is given. *)
Lemma generateResponse_error_of_method (method : string) (customData : value)
    (e : Thrown) :
  generateResponse this challenge (Some method) customData = Throw e ->
  exists k,
    e = Raised k
    /\ err_message k <> EmptyString
    /\ err_code k = None
    /\ err_statusCode k = None
    /\ (k = custom_data_required \/ exists m, k = unknown_method m).
Proof.
  destruct (generateResponse_cases method customData)
    as [[-> H] | [[-> H] | [[-> H] | [[-> _] | (_ & _ & _ & _ & H)]]]];
    try (rewrite H; discriminate).
  - rewrite generateResponse_custom.
    destruct (truthy customData); cbn [negb]; [discriminate |].
    intros Heq. injection Heq as <-.
    exists custom_data_required. repeat split; [discriminate | now left].
  - rewrite H. intros Heq. injection Heq as <-.
    exists (unknown_method method). repeat split; [discriminate | right; eauto].
Qed.



(** X7. Every response other than the echo is a digest in hexadecimal: 64
    characters, each of them one of [0-9a-f]; this holds for the [custom]
    method and for the default method too. *)
Theorem generateResponse_digest_shape (method : option string)
    (customData : value) (r : string) :
  method <> Some "echo" ->
  generateResponse this challenge method customData = Ok r ->
  String.length r = 64%nat /\ Bytes.all_chars Bytes.is_hex_char r = true.
Proof.
  assert (Hsome : forall m, m <> "echo" ->
                  generateResponse this challenge (Some m) customData = Ok r ->
                  String.length r = 64%nat
                  /\ Bytes.all_chars Bytes.is_hex_char r = true).
  { intros m Hecho.
    destruct (generateResponse_cases m customData)
      as [[-> H] | [[-> H] | [[-> H] | [[-> _] | (_ & _ & _ & _ & H)]]]].
    - contradiction.
    - rewrite H. intros Heq. injection Heq as <-.
      split; [apply hmac_sha256_hex_length | apply hex_all_hex].
    - rewrite H. intros Heq. injection Heq as <-.
      split; [apply sha256_hex_length | apply hex_all_hex].
    - rewrite generateResponse_custom.
      destruct (truthy customData); cbn [negb]; [| discriminate].
      intros Heq. injection Heq as <-.
      split; [apply sha256_hex_length | apply hex_all_hex].
    - rewrite H. discriminate. }
  intros Hecho. destruct method as [m |].
  - apply Hsome. congruence.
  - intros H. apply (Hsome "hmac"); [discriminate | exact H].
Qed.

End GenerateResponseMore.


Lemma generateResponse_digest_shape_witness :
  String.length (sha256_hex "test-challenge:custom-string") = 64%nat.
Proof.
  exact (proj1 (generateResponse_digest_shape Fixtures.client "test-challenge"
                  (Some "custom") (Str "custom-string") _
                  ltac:(discriminate) generate_custom_string)).
Defined.

(** [JSON.stringify] of a number, a string, an array or an object is never
    the empty string. *)
Lemma string_of_int_truthy (i : Decimal.signed_int) :
  truthy_string (NilZero.string_of_int i) = true.
Proof.
  destruct i as [d | d]; [| reflexivity].
  destruct d; reflexivity.
Qed.

Lemma JSON_stringify_truthy (v : value) (s : string) :
  JSON_stringify v = Some s -> truthy_string s = true.
Proof.
  destruct v as [| | [|] | [z |] | s0 | items | props];
    cbn [JSON_stringify]; intros H; try discriminate;
    injection H as <-; try reflexivity.
  apply string_of_int_truthy.
Qed.

(** X8. With method [custom], custom data that is a string enters the digest
    as it is, and any other custom data through its JSON text: so truthy
    custom data that is not a string gives the same response as the string
    of its JSON text (the number 123 as the string 123, an array as the
    string that spells it). *)
Theorem custom_data_collides_with_its_json (this : KeyClaimClient)
    (challenge : string) (v : value) (s : string) :
  truthy v = true ->
  (forall s0, v <> Str s0) ->
  JSON_stringify v = Some s ->
  generateResponse this challenge (Some "custom") v
  = generateResponse this challenge (Some "custom") (Str s).
Proof.
  intros Htruthy Hnot Hjson.
  rewrite !generateResponse_custom. rewrite Htruthy.
  cbn [truthy]. rewrite (JSON_stringify_truthy v s Hjson). cbn [negb].
  do 2 f_equal.
  destruct v; try (rewrite Hjson; reflexivity).
  exfalso. now apply (Hnot s0).
Qed.

Lemma custom_data_collides_with_its_json_witness :
  generateResponse Fixtures.client "test-challenge" (Some "custom") (Num (Int 123))
  = generateResponse Fixtures.client "test-challenge" (Some "custom") (Str "123")
  /\ generateResponse Fixtures.client "test-challenge" (Some "custom")
       (Arr [Num (Int 1); Bool true])
  = generateResponse Fixtures.client "test-challenge" (Some "custom") (Str "[1,true]").
Proof.
  split.
  - exact (custom_data_collides_with_its_json Fixtures.client "test-challenge"
             (Num (Int 123)) "123" eq_refl ltac:(discriminate) eq_refl).
  - exact (custom_data_collides_with_its_json Fixtures.client "test-challenge"
             (Arr [Num (Int 1); Bool true]) "[1,true]" eq_refl ltac:(discriminate)
             eq_refl).
Defined.

(** X9. With method [hash] the response depends on the concatenation of
    challenge and secret only, not on where the one ends and the other
    begins: two clients and two challenges with the same concatenation give
    the same response. *)
Theorem hash_depends_on_concatenation (this other : KeyClaimClient)
    (challenge challenge' : string) (customData customData' : value) :
  challenge ++ secret this = challenge' ++ secret other ->
  generateResponse this challenge (Some "hash") customData
  = generateResponse other challenge' (Some "hash") customData'.
Proof.
  intros Hconcat. rewrite !generateResponse_hash. now rewrite Hconcat.
Qed.

Lemma hash_depends_on_concatenation_witness :
  generateResponse Fixtures.client "test-challenge" (Some "hash") Undefined
  = generateResponse
      {| apiKey := apiKey Fixtures.client; baseUrl := baseUrl Fixtures.client;
         secret := "-challengetest-secret-key";
         axiosInstance := axiosInstance Fixtures.client |}
      "test" (Some "hash") Undefined.
Proof.
  exact (hash_depends_on_concatenation Fixtures.client
           {| apiKey := apiKey Fixtures.client; baseUrl := baseUrl Fixtures.client;
              secret := "-challengetest-secret-key";
              axiosInstance := axiosInstance Fixtures.client |}
           "test-challenge" "test" Undefined Undefined eq_refl).
Defined.

(** ** Further properties of handleError *)

Lemma handleError_message_truthy (error : Thrown) (defaultMessage : string) :
  truthy_string defaultMessage = true ->
  truthy_string (err_message (handleError error defaultMessage)) = true.
Proof.
  intros Hdefault. unfold handleError.
  destruct (response_of error) as [response |]; cbn [new_KeyClaimError err_message].
  - now apply or_string_truthy.
  - destruct (request_of error); cbn [new_KeyClaimError err_message];
      [reflexivity | now apply or_string_truthy].
Qed.

(** X10. The error that [handleError] builds has a message that is not
    empty whenever the default message is not empty, whatever the failure:
    an empty [error], [message] or transport message never becomes the
    message of the error. *)
Theorem handleError_message_nonempty (error : Thrown) (defaultMessage : string) :
  defaultMessage <> EmptyString ->
  err_message (handleError error defaultMessage) <> EmptyString.
Proof.
  intros Hdefault. apply truthy_string_nonempty in Hdefault.
  now apply truthy_string_nonempty, handleError_message_truthy.
Qed.

Lemma handleError_message_nonempty_witness :
  err_message (handleError (Rejection Fixtures.empty_error) "Failed to create challenge")
  <> EmptyString.
Proof.
  exact (handleError_message_nonempty (Rejection Fixtures.empty_error)
           "Failed to create challenge" ltac:(discriminate)).
Defined.

(** ** Further properties of the remote operations *)

Lemma or_string_of_truthy (s d : string) :
  s <> EmptyString -> or_string (Some s) d = s.
Proof.
  intros Hs. apply truthy_string_nonempty in Hs.
  cbn [or_string]. now rewrite Hs.
Qed.

(** Classifying an error of the client's own again keeps its message. *)
Lemma handleError_keeps_message (k : KeyClaimError) (defaultMessage : string) :
  err_message k <> EmptyString ->
  err_message (handleError (Raised k) defaultMessage) = err_message k.
Proof.
  intros Hk. rewrite handleError_of_raised.
  cbn [new_KeyClaimError err_message]. now apply or_string_of_truthy.
Qed.

Section RemoteMore.

Variable t : Transport.

(** X11. [createChallenge] makes exactly one request, to the create
    endpoint, whether the call resolves or is rejected: it does not retry.
    It returns the payload of a resolved call as it is; what it throws is
    never the rejection itself but the [KeyClaimError] classified from it,
    whose message is not empty. *)
Theorem createChallenge_one_request (options : option CreateChallengeOptions)
    (log : list Request) :
  exists n,
    snd (createChallenge t options log) = (log ++ [create_request n])%list
    /\ (forall data,
          create_endpoint t log n = Resolved data ->
          fst (createChallenge t options log) = Ok data)
    /\ (forall e,
          fst (createChallenge t options log) = Throw e ->
          exists f k,
            create_endpoint t log n = Rejected f
            /\ e = Raised k
            /\ k = handleError (Rejection f) "Failed to create challenge"
            /\ err_message k <> EmptyString).
Proof.
  exists (or_number (options_ttl options) (Int 30)).
  rewrite createChallenge_run. cbn [fst snd].
  split; [reflexivity |]. split.
  - intros data Hdata. now rewrite Hdata.
  - intros e. destruct (create_endpoint t log _) as [data | f]; [discriminate |].
    intros He. injection He as <-.
    exists f, (handleError (Rejection f) "Failed to create challenge").
    repeat split. now apply truthy_string_nonempty, handleError_message_truthy.
Qed.

(** X13. [validateChallenge] makes exactly one request, carrying the
    challenge, the response and the decrypted challenge of its options, and
    a payload that the call resolves with is returned as it is: a payload
    with [valid: false] is a result, not an error. *)
Theorem validateChallenge_one_request (options : ValidateChallengeOptions)
    (log : list Request) :
  snd (validateChallenge t options log)
    = (log ++ [{| req_url := "/challenge/validate";
                  req_body := ValidateBody (vo_challenge options)
                                           (vo_response options)
                                           (vo_decryptedChallenge options) |}])%list
  /\ (forall data,
        validate_endpoint t log (vo_challenge options) (vo_response options)
                          (vo_decryptedChallenge options) = Resolved data ->
        fst (validateChallenge t options log) = Ok data).
Proof.
  rewrite validateChallenge_run. cbn [fst snd].
  split; [reflexivity |].
  intros data Hdata. now rewrite Hdata.
Qed.

(** X14. When the validate call is rejected, [validateChallenge] never
    reports success: an outcome it returns has [valid = false], no signature
    and no quota, and an error text that is not empty, even when the body of
    the error response says [valid: true]. *)
Theorem validateChallenge_rejected_never_valid (options : ValidateChallengeOptions)
    (log : list Request) (f : Failure) (outcome : ValidateChallengeResponse) :
  validate_endpoint t log (vo_challenge options) (vo_response options)
                    (vo_decryptedChallenge options) = Rejected f ->
  fst (validateChallenge t options log) = Ok outcome ->
  valid outcome = false
  /\ signature outcome = None
  /\ quota outcome = None
  /\ exists text, error outcome = Some text /\ text <> EmptyString.
Proof.
  intros Hpost. rewrite validateChallenge_run, Hpost. cbn [fst].
  destruct (validation_body (Rejection f)) as [d |]; [| discriminate].
  intros Hok. injection Hok as <-. cbn [valid signature quota error].
  repeat split. eexists. split; [reflexivity |].
  apply truthy_string_nonempty, or_string_truthy. reflexivity.
Qed.


End RemoteMore.

Lemma validateChallenge_rejected_never_valid_witness :
  exists outcome,
    fst (validateChallenge
           (Fixtures.rejecting
              (Fixtures.http_failure 400 (Fixtures.body None None (Some true)) None))
           Fixtures.validateOptions []) = Ok outcome
    /\ valid outcome = false.
Proof.
  eexists. split; [reflexivity |].
  exact (proj1 (validateChallenge_rejected_never_valid
                  (Fixtures.rejecting
                     (Fixtures.http_failure 400 (Fixtures.body None None (Some true))
                        None))
                  Fixtures.validateOptions [] _ _ eq_refl eq_refl)).
Defined.


Lemma createChallenge_one_request_witness :
  createChallenge
    (Fixtures.resolving Fixtures.mockChallenge Fixtures.mockValidationResponse)
    (Some {| opt_ttl := Some (Int 60) |}) []
  = (Ok Fixtures.mockChallenge, [create_request (Int 60)]).
Proof.
  destruct (createChallenge_one_request
              (Fixtures.resolving Fixtures.mockChallenge Fixtures.mockValidationResponse)
              (Some {| opt_ttl := Some (Int 60) |}) []) as (n & Hlog & Hok & _).
  rewrite (surjective_pairing (createChallenge _ _ _)).
  rewrite createChallenge_run in Hlog. cbn [snd] in Hlog.
  apply app_inv_head in Hlog. injection Hlog as <-.
  rewrite (Hok Fixtures.mockChallenge eq_refl). reflexivity.
Defined.

Lemma validateChallenge_one_request_witness :
  validateChallenge
    (Fixtures.resolving Fixtures.mockChallenge
       {| valid := false; signature := None; quota := None;
          error := Some "Invalid response" |})
    Fixtures.validateOptions []
  = (Ok {| valid := false; signature := None; quota := None;
           error := Some "Invalid response" |},
     [validate_request Fixtures.validateOptions]).
Proof.
  destruct (validateChallenge_one_request
              (Fixtures.resolving Fixtures.mockChallenge
                 {| valid := false; signature := None; quota := None;
                    error := Some "Invalid response" |})
              Fixtures.validateOptions []) as (Hlog & Hok).
  rewrite (surjective_pairing (validateChallenge _ _ _)).
  rewrite Hlog, (Hok _ eq_refl). reflexivity.
Defined.

(** ** Further properties of the composite operation *)

Section ValidateMore.

Variable t : Transport.
Variable this : KeyClaimClient.

(** X12. A [ttl] that is not [0] or [NaN] is sent as it is, by
    [createChallenge] and as the first request of [validate]: the client
    does not check that it is positive or bounded. *)
Theorem truthy_ttl_is_sent_unchanged (n : number) (method : option string)
    (customData : value) (log : list Request) :
  truthy_number n = true ->
  snd (createChallenge t (Some {| opt_ttl := Some n |}) log)
    = (log ++ [create_request n])%list
  /\ exists rest,
       snd (validate t this method (Some n) customData log)
       = (log ++ create_request n :: rest)%list.
Proof.
  intros Hn. split.
  - rewrite createChallenge_run. cbn [snd options_ttl opt_ttl or_number].
    now rewrite Hn.
  - rewrite validate_run. cbv zeta. cbn [or_number]. rewrite Hn.
    destruct (create_endpoint t log n) as [created | f]; [| now exists []].
    destruct (generateResponse this (challenge created) _ customData)
      as [response | e]; [| now exists []].
    rewrite validateChallenge_run.
    eexists [_].
    destruct (validate_endpoint t _ _ _ _) as [data | f];
      [| destruct (validation_body (Rejection f))];
      cbn [snd]; now rewrite <- app_assoc.
Qed.

(** X16. [validate] makes the create request and nothing else, or the
    create request followed by one validate request; the second happens
    only after the create call has resolved and a response has been
    generated from the challenge it returned, it carries that challenge and
    that response, and it never carries a decrypted challenge. *)
Theorem validate_requests (method : option string) (ttl : option number)
    (customData : value) (log : list Request) :
  exists n,
    snd (validate t this method ttl customData log) = (log ++ [create_request n])%list
    \/ exists created response,
         create_endpoint t log n = Resolved created
         /\ generateResponse this (challenge created)
              (Some (match method with Some m => m | None => "hmac" end)) customData
            = Ok response
         /\ snd (validate t this method ttl customData log)
            = (log ++ [create_request n;
                       {| req_url := "/challenge/validate";
                          req_body := ValidateBody (challenge created) response None |}])%list.
Proof.
  rewrite validate_run. cbv zeta.
  set (n := or_number _ (Int 30)). exists n.
  destruct (create_endpoint t log n) as [created | f] eqn:Hcreate; [| now left].
  destruct (generateResponse this (challenge created) _ customData)
    as [response | e] eqn:Hgen; [| now left].
  right. exists created, response.
  split; [reflexivity |]. split; [exact Hgen |].
  rewrite validateChallenge_run. unfold validate_request.
  cbn [vo_challenge vo_response vo_decryptedChallenge].
  destruct (validate_endpoint t _ _ _ _) as [data | f];
    [| destruct (validation_body (Rejection f))];
    cbn [snd]; now rewrite <- app_assoc.
Qed.

(** X17. [validate] finds an unusable method or missing custom data only
    after the create call: when that call resolves and the response cannot
    be generated, the create request has been made, no validate request
    follows, and the error thrown carries the message of the error of
    [generateResponse]. *)
Theorem validate_local_error_after_create (method : string) (n : number)
    (customData : value) (log : list Request)
    (created : CreateChallengeResponse) (k : KeyClaimError) :
  truthy_number n = true ->
  create_endpoint t log n = Resolved created ->
  generateResponse this (challenge created) (Some method) customData
    = Throw (Raised k) ->
  snd (validate t this (Some method) (Some n) customData log)
    = (log ++ [create_request n])%list
  /\ exists k',
       fst (validate t this (Some method) (Some n) customData log) = Throw (Raised k')
       /\ err_message k' = err_message k.
Proof.
  intros Hn Hcreate Hgen.
  destruct (generateResponse_error_of_method this (challenge created)
              method customData _ Hgen) as (k0 & Hk0 & Hmessage & _).
  injection Hk0 as <-.
  rewrite validate_run. cbv zeta. cbn [or_number]. rewrite Hn, Hcreate, Hgen.
  split; [reflexivity |].
  eexists. split; [reflexivity |].
  now apply handleError_keeps_message.
Qed.

(** X18. When the create call resolves and the validate call is rejected
    with a body that has a [valid] field, [validate] does not throw: it
    returns the negative outcome that [validateChallenge] makes of the
    body. *)
Theorem validate_returns_negative_outcome (method : string) (n : number)
    (customData : value) (log : list Request)
    (created : CreateChallengeResponse) (response : string)
    (f : Failure) (r : ErrorResponse) (payload : ErrorBody) (v : bool) :
  truthy_number n = true ->
  create_endpoint t log n = Resolved created ->
  generateResponse this (challenge created) (Some method) customData = Ok response ->
  validate_endpoint t (log ++ [create_request n]) (challenge created) response None
    = Rejected f ->
  fail_response f = Some r ->
  resp_data r = Some payload ->
  body_valid payload = Some v ->
  fst (validate t this (Some method) (Some n) customData log)
  = Ok {| valid := false;
          signature := None;
          quota := None;
          error := Some (first_nonempty [body_error payload] "Validation failed") |}.
Proof.
  intros Hn Hcreate Hgen Hpost Hresponse Hdata Hvalid.
  rewrite validate_run. cbv zeta. cbn [or_number]. rewrite Hn, Hcreate, Hgen.
  rewrite validateChallenge_run.
  cbn [vo_challenge vo_response vo_decryptedChallenge].
  rewrite Hpost. unfold validation_body. cbn [response_of].
  rewrite Hresponse, Hdata, Hvalid. cbn [fst].
  destruct_candidate (body_error payload); reflexivity.
Qed.


End ValidateMore.

Lemma truthy_ttl_is_sent_unchanged_witness :
  snd (createChallenge (Fixtures.rejecting Fixtures.network_timeout)
         (Some {| opt_ttl := Some (Int (-5)) |}) [])
  = [create_request (Int (-5))].
Proof.
  exact (proj1 (truthy_ttl_is_sent_unchanged
                  (Fixtures.rejecting Fixtures.network_timeout) Fixtures.client
                  (Int (-5)) None Undefined [] eq_refl)).
Defined.

Lemma validate_requests_witness :
  snd (validate (Fixtures.rejecting Fixtures.forbidden) Fixtures.client
         None None Undefined [])
  = [create_request (Int 30)].
Proof.
  destruct (validate_requests (Fixtures.rejecting Fixtures.forbidden) Fixtures.client
              None None Undefined []) as (n & [Hone | (c & r & Hcreate & _)]).
  - rewrite validate_run. reflexivity.
  - discriminate Hcreate.
Defined.

Lemma validate_local_error_after_create_witness :
  snd (validate
         (Fixtures.resolving Fixtures.mockChallenge Fixtures.mockValidationResponse)
         Fixtures.client (Some "bogus") (Some (Int 30)) Undefined [])
  = [create_request (Int 30)].
Proof.
  exact (proj1 (validate_local_error_after_create
                  (Fixtures.resolving Fixtures.mockChallenge
                     Fixtures.mockValidationResponse)
                  Fixtures.client "bogus" (Int 30) Undefined [] Fixtures.mockChallenge
                  (unknown_method "bogus") eq_refl eq_refl eq_refl)).
Defined.

Lemma validate_returns_negative_outcome_witness :
  fst (validate
         (Fixtures.create_then_reject Fixtures.mockChallenge Fixtures.invalid_response)
         Fixtures.client (Some "echo") (Some (Int 30)) Undefined [])
  = Ok {| valid := false; signature := None; quota := None;
          error := Some "Invalid response" |}.
Proof.
  exact (validate_returns_negative_outcome
           (Fixtures.create_then_reject Fixtures.mockChallenge
              Fixtures.invalid_response)
           Fixtures.client "echo" (Int 30) Undefined [] Fixtures.mockChallenge
           "test-challenge-123" Fixtures.invalid_response
           {| resp_status := 400;
              resp_data := Some (Fixtures.body (Some "Invalid response") None
                                   (Some false)) |}
           (Fixtures.body (Some "Invalid response") None (Some false)) false
           eq_refl eq_refl eq_refl eq_refl eq_refl eq_refl eq_refl).
Defined.


(** X20. For every method and every truthy [ttl]: when the create call
    resolves, a response is generated from the returned challenge and the
    validate call made with both resolves, [validate] returns the payload
    of the validate call as it is, a payload with [valid: false] included,
    after exactly these two requests. *)
Theorem validate_resolves_with_payload (t : Transport) (this : KeyClaimClient)
    (method : string) (n : number) (customData : value) (log : list Request)
    (created : CreateChallengeResponse) (response : string)
    (outcome : ValidateChallengeResponse) :
  truthy_number n = true ->
  create_endpoint t log n = Resolved created ->
  generateResponse this (challenge created) (Some method) customData = Ok response ->
  validate_endpoint t (log ++ [create_request n]) (challenge created) response None
    = Resolved outcome ->
  validate t this (Some method) (Some n) customData log
  = (Ok outcome,
     (log ++ [create_request n;
              {| req_url := "/challenge/validate";
                 req_body := ValidateBody (challenge created) response None |}])%list).
Proof.
  intros Hn Hcreate Hgen Hpost.
  rewrite validate_run. cbv zeta. cbn [or_number]. rewrite Hn, Hcreate, Hgen.
  rewrite validateChallenge_run.
  cbn [vo_challenge vo_response vo_decryptedChallenge].
  rewrite Hpost. unfold validate_request.
  cbn [vo_challenge vo_response vo_decryptedChallenge].
  now rewrite <- app_assoc.
Qed.

Lemma validate_resolves_with_payload_witness :
  validate
    (Fixtures.resolving Fixtures.mockChallenge
       {| valid := false; signature := None; quota := None;
          error := Some "Invalid response" |})
    Fixtures.client (Some "echo") (Some (Int 60)) Undefined []
  = (Ok {| valid := false; signature := None; quota := None;
           error := Some "Invalid response" |},
     [create_request (Int 60);
      {| req_url := "/challenge/validate";
         req_body := ValidateBody "test-challenge-123" "test-challenge-123" None |}]).
Proof.
  exact (validate_resolves_with_payload
           (Fixtures.resolving Fixtures.mockChallenge
              {| valid := false; signature := None; quota := None;
                 error := Some "Invalid response" |})
           Fixtures.client "echo" (Int 60) Undefined [] Fixtures.mockChallenge
           "test-challenge-123"
           {| valid := false; signature := None; quota := None;
              error := Some "Invalid response" |}
           eq_refl eq_refl eq_refl eq_refl).
Defined.
